(** * Playwright bridge (src/Playwright/__init__.py): a shallow embedding

    The Python class [Playwright] drives an external engine process over
    gRPC.  Everything the class does to the outside world (logging, opening
    the log file, allocating a port, spawning the process, opening and
    closing channels, unary calls, sleeping, polling and killing the process)
    is recorded as an [event] in a trace; everything the outside world
    answers (the free port, the reply to a call, the poll result) is read
    from an [Env] of oracles that see the whole history.  The instance
    attributes ([port], the slot of the cached property) and the trace are
    threaded through a state-and-exception monad.

    Strings are Python [str] values over the code points 0..255 (one [ascii]
    per code point); [lower] and [strip] follow CPython on that range. *)

From Stdlib Require Import String Ascii List Bool Arith NArith ZArith Lia.
From Stdlib Require Import DecimalString.
Import ListNotations.
Open Scope string_scope.

(* ------------------------------------------------------------------ *)
(** ** Python strings *)

Module PyStr.

(** [str.isspace] on one code point below 256: TAB..CR, FS..US, SPACE,
    NEL (0x85) and NBSP (0xA0). *)
Definition isspace (c : ascii) : bool :=
  let n := nat_of_ascii c in
  (((9 <=? n) && (n <=? 13)) || ((28 <=? n) && (n <=? 32))
   || (n =? 133) || (n =? 160))%nat.

(** [str.lower] on one code point below 256: A..Z and the Latin-1 capitals
    0xC0..0xDE (the multiplication sign 0xD7 apart) move up by 32. *)
Definition lower_char (c : ascii) : ascii :=
  let n := nat_of_ascii c in
  if (((65 <=? n) && (n <=? 90))
      || ((192 <=? n) && (n <=? 222) && negb (n =? 215)))%nat
  then ascii_of_nat (n + 32) else c.

Fixpoint lower (s : string) : string :=
  match s with
  | EmptyString => EmptyString
  | String c r => String (lower_char c) (lower r)
  end.

Fixpoint lstrip (s : string) : string :=
  match s with
  | EmptyString => EmptyString
  | String c r => if isspace c then lstrip r else s
  end.

Fixpoint rstrip (s : string) : string :=
  match s with
  | EmptyString => EmptyString
  | String c r =>
      match rstrip r with
      | EmptyString => if isspace c then EmptyString else String c EmptyString
      | r' => String c r'
      end
  end.

(** [s.strip()] with no argument. *)
Definition strip (s : string) : string := rstrip (lstrip s).

(** [sep.join(l)]. *)
Fixpoint join (sep : string) (l : list string) : string :=
  match l with
  | [] => ""
  | [x] => x
  | x :: r => x ++ sep ++ join sep r
  end.

(** [x in l] for a list of strings. *)
Definition mem (x : string) (l : list string) : bool :=
  existsb (String.eqb x) l.

(** [str(n)] for a non-negative integer. *)
Definition of_N (n : N) : string := NilZero.string_of_uint (N.to_uint n).

(** [sub in s]: [sub] occurs in [s] as a contiguous piece. *)
Definition contains (sub s : string) : Prop :=
  exists pre post, s = pre ++ sub ++ post.

(** [s.startswith(p)] and [s.endswith("/")], as [os.path.join] needs them. *)
Definition startswith (p s : string) : bool := String.prefix p s.

Fixpoint ends_with_slash (s : string) : bool :=
  match s with
  | EmptyString => false
  | String c EmptyString => Ascii.eqb c "/"%char
  | String _ r => ends_with_slash r
  end.

(** [os.path.join(a, b)] on POSIX. *)
Definition path_join (a b : string) : string :=
  if startswith "/" b then b
  else if String.eqb a "" || ends_with_slash a then a ++ b
  else a ++ "/" ++ b.

End PyStr.

(** [_SUPPORTED_BROWSERS] (line 21). *)
Definition _SUPPORTED_BROWSERS : list string := ["chrome"; "firefox"; "webkit"].

(* ------------------------------------------------------------------ *)
(** ** The outside world: messages, events, oracles *)

(** Request messages of [playwright_pb2], as the keywords build them. *)
Inductive message : Type :=
| Empty
| openBrowserRequest (url browser : string)
| goToRequest (url : string)
| inputTextRequest (input selector : string)
| selectorRequest (selector : string).

(** The methods of [PlaywrightStub] the class calls. *)
Inductive method : Type :=
| Health | OpenBrowser | CloseBrowser | GoTo | InputText | ClickButton
| GetUrl | GetInputValue | GetTitle | GetTextContent.

(** Every response carries a log message and a body. *)
Record Response : Type := { log : string; body : string }.

(** A [Popen] object, named by the order of its creation. *)
Record Popen : Type := { pid : nat }.

(** A [grpc.Channel] object, named by the order of its creation. *)
Record Channel : Type := { cid : nat }.

(** [PlaywrightStub(channel)]. *)
Record PlaywrightStub : Type := { stub_channel : Channel }.

Inductive level : Type := INFO | DEBUG.

Inductive event : Type :=
| EvLog (lvl : level) (msg : string)
| EvOpenFile (path mode : string)
| EvFreePort (p : N)
| EvSpawn (proc : Popen) (args : list string) (cwd : string)
          (env : list (string * string)) (stdout : string)
| EvChanOpen (ch : Channel) (target : string)
| EvChanClose (ch : Channel)
| EvRpc (ch : Channel) (m : method) (req : message) (res : option Response)
| EvSleep (millis : nat)
| EvPoll (proc : Popen) (returncode : option Z)
| EvKill (proc : Popen).

(** What the class reads from outside.  Each oracle is given the history
    (newest event first).  The log file can be opened and [node] can be
    spawned: [open] and [Popen] do not raise here. *)
Record Env : Type := {
  (** [os.path.dirname(os.path.abspath(__file__))] *)
  module_dir : string;
  (** [os.environ["PATH"]] *)
  environ_PATH : string;
  (** [BuiltIn().get_variable_value("${OUTPUTDIR}")] *)
  output_dir : string;
  (** Modelled from the spec: [find_free_port] of [Playwright/util.py],
      which is not among the sources; the port allocator returns the port the
      operating system assigned to an ephemeral local socket. *)
  find_free_port : list event -> N;
  (** The engine's answer to a unary call; [None] is [grpc.RpcError]. *)
  rpc_reply : list event -> method -> message -> option Response;
  (** [Popen.poll()]: [None] while the process runs, else its return code. *)
  os_poll : list event -> Popen -> option Z;
  (** [str(response)], as the f-string of line 113 prints it. *)
  show_response : Response -> string
}.

Inductive exn : Type :=
| ValueError (msg : string)
| RuntimeError (msg : string)
| ConnectionError (msg : string)
| AssertionError (msg : string)
| RpcError.

Inductive result (A : Type) : Type :=
| Ok (a : A)
| Raise (e : exn).
Arguments Ok {A} a.
Arguments Raise {A} e.

(** The instance ([self]) and the trace. *)
Record State : Type := {
  ROBOT_OUTPUT_DIR : string;
  (** [port: Optional[str] = None], then the instance attribute of line 98 *)
  port : option string;
  (** the instance-dictionary slot [cached_property] fills *)
  cached_process : option Popen;
  trace : list event
}.

Definition M (A : Type) : Type := State -> result A * State.

Definition ret {A} (a : A) : M A := fun s => (Ok a, s).

Definition raise {A} (e : exn) : M A := fun s => (Raise e, s).

Definition bind {A B} (m : M A) (f : A -> M B) : M B :=
  fun s => match m s with
           | (Ok a, s1) => f a s1
           | (Raise e, s1) => (Raise e, s1)
           end.

Notation "x <- m ;; k" := (bind m (fun x => k))
  (at level 61, m at next level, right associativity).
Notation "m ;;; k" := (bind m (fun _ => k))
  (at level 61, right associativity).

Definition emit (e : event) : M unit :=
  fun s => (Ok tt, {| ROBOT_OUTPUT_DIR := ROBOT_OUTPUT_DIR s; port := port s;
                      cached_process := cached_process s;
                      trace := e :: trace s |}).

Definition get_port : M (option string) := fun s => (Ok (port s), s).

Definition set_port (p : string) : M unit :=
  fun s => (Ok tt, {| ROBOT_OUTPUT_DIR := ROBOT_OUTPUT_DIR s; port := Some p;
                      cached_process := cached_process s;
                      trace := trace s |}).

Definition get_output_dir : M string := fun s => (Ok (ROBOT_OUTPUT_DIR s), s).

Definition history : M (list event) := fun s => (Ok (trace s), s).

(** [f"{self.port}"]: [None] prints as its name. *)
Definition fmt_port (p : option string) : string :=
  match p with Some x => x | None => "None" end.

Definition is_spawn (e : event) : bool :=
  match e with EvSpawn _ _ _ _ _ => true | _ => false end.

Definition is_chan_open (e : event) : bool :=
  match e with EvChanOpen _ _ => true | _ => false end.

Definition count (f : event -> bool) (t : list event) : nat :=
  List.length (filter f t).

Definition logger_info (msg : string) : M unit := emit (EvLog INFO msg).

Definition logger_debug (msg : string) : M unit := emit (EvLog DEBUG msg).

(** [open(path, "w")]; the file object is named by its path. *)
Definition open_w (path : string) : M string :=
  emit (EvOpenFile path "w") ;;; ret path.

Definition call_find_free_port (E : Env) : M N :=
  h <- history ;;
  let p := find_free_port E h in
  emit (EvFreePort p) ;;; ret p.

(** [Popen(args, shell=False, cwd=.., env=.., stdout=.., stderr=STDOUT)]. *)
Definition Popen_new (args : list string) (cwd : string)
    (env : list (string * string)) (stdout : string) : M Popen :=
  h <- history ;;
  let p := {| pid := count is_spawn h |} in
  emit (EvSpawn p args cwd env stdout) ;;; ret p.

(** [grpc.insecure_channel(target)]. *)
Definition insecure_channel (target : string) : M Channel :=
  h <- history ;;
  let c := {| cid := count is_chan_open h |} in
  emit (EvChanOpen c target) ;;; ret c.

(** [channel.close()]. *)
Definition channel_close (c : Channel) : M unit := emit (EvChanClose c).

(** [stub.<method>(request)]: the reply, or [grpc.RpcError]. *)
Definition unary_call (E : Env) (stub : PlaywrightStub) (m : method)
    (req : message) : M Response :=
  h <- history ;;
  let r := rpc_reply E h m req in
  emit (EvRpc (stub_channel stub) m req r) ;;;
  match r with
  | Some resp => ret resp
  | None => raise RpcError
  end.

(** [time.sleep(0.1)] is [sleep 100]. *)
Definition sleep (millis : nat) : M unit := emit (EvSleep millis).

(** [popen.poll()]. *)
Definition poll (E : Env) (p : Popen) : M (option Z) :=
  h <- history ;;
  let r := os_poll E h p in
  emit (EvPoll p r) ;;; ret r.

(** [popen.kill()]. *)
Definition kill (p : Popen) : M unit := emit (EvKill p).

(** [with grpc.insecure_channel(target) as channel: body]; a channel's
    [__exit__] closes it on every way out of the block. *)
Definition with_channel {A} (target : string) (body : Channel -> M A) : M A :=
  fun s =>
    match insecure_channel target s with
    | (Raise e, s1) => (Raise e, s1)
    | (Ok c, s1) =>
        match body c s1 with
        | (r, s2) =>
            match channel_close c s2 with
            | (Ok _, s3) => (r, s3)
            | (Raise e, s3) => (Raise e, s3)
            end
        end
    end.

(** [try: body  except grpc.RpcError: handler]. *)
Definition try_except_RpcError {A} (body handler : M A) : M A :=
  fun s =>
    match body s with
    | (Raise RpcError, s1) => handler s1
    | other => other
    end.

(** A function under [@contextlib.contextmanager] with one [yield] that no
    [try] encloses: the code up to the yield, which hands out [Y] and keeps
    its locals [K], and the code after it. *)
Record contextmanager (Y K : Type) : Type := {
  before_yield : M (Y * K);
  after_yield : K -> M unit
}.
Arguments before_yield {Y K} c.
Arguments after_yield {Y K} c.

(** [with cm as y: body].  [__enter__] runs the generator to its yield.  When
    the block ends normally [__exit__] resumes the generator, which runs the
    code after the yield.  When the block raises, [__exit__] throws the
    exception into the generator at the yield; nothing there catches it, so
    the generator ends without running the rest and the exception goes on. *)
Definition with_ {Y K A} (cm : contextmanager Y K) (body : Y -> M A) : M A :=
  fun s =>
    match before_yield cm s with
    | (Raise e, s1) => (Raise e, s1)
    | (Ok (y, k), s1) =>
        match body y s1 with
        | (Raise e, s2) => (Raise e, s2)
        | (Ok a, s2) =>
            match after_yield cm k s2 with
            | (Ok _, s3) => (Ok a, s3)
            | (Raise e, s3) => (Raise e, s3)
            end
        end
    end.

(* ------------------------------------------------------------------ *)
(** ** class Playwright *)

(** [__init__] (lines 88-90): a new instance; nothing is started. *)
Definition __init__ (E : Env) : State :=
  {| ROBOT_OUTPUT_DIR := output_dir E; port := None;
     cached_process := None; trace := [] |}.

(** One turn of the loop of lines 107-117: [Some popen] when the turn ends
    in [return popen], [None] when the loop goes on. *)
Definition health_probe (E : Env) (popen : Popen) : M (option Popen) :=
  port_ <- get_port ;;
  with_channel ("localhost:" ++ fmt_port port_) (fun channel =>
    try_except_RpcError
      (let stub := {| stub_channel := channel |} in
       response <- unary_call E stub Health Empty ;;
       port_ <- get_port ;;
       logger_info ("Connected to the playwright process at port $"
                    ++ fmt_port port_ ++ ": $" ++ show_response E response) ;;;
       ret (Some popen))
      (sleep 100 ;;; ret None)).

(** [for i in range(n): ...] of line 107, left early by [return popen]. *)
Fixpoint health_loop (E : Env) (popen : Popen) (n : nat) : M (option Popen) :=
  match n with
  | O => ret None
  | S n' =>
      r <- health_probe E popen ;;
      match r with
      | Some p => ret (Some p)
      | None => health_loop E popen n'
      end
  end.

(** The body of [_playwright_process] (lines 94-120). *)
Definition _playwright_process_body (E : Env) : M Popen :=
  let cwd_dir := PyStr.path_join (module_dir E) "wrapper" in
  let path_to_script := PyStr.path_join cwd_dir "index.js" in
  logger_info ("Starting Playwright process " ++ path_to_script) ;;;
  dir <- get_output_dir ;;
  logfile <- open_w (PyStr.path_join dir "playwright-log.txt") ;;
  p <- call_find_free_port E ;;
  set_port (PyStr.of_N p) ;;;
  port_ <- get_port ;;
  popen <- Popen_new ["node"; path_to_script] cwd_dir
             [("PORT", fmt_port port_); ("PATH", environ_PATH E)] logfile ;;
  r <- health_loop E popen 50 ;;
  match r with
  | Some ready => ret ready
  | None =>
      port_ <- get_port ;;
      raise (RuntimeError
               ("Could not connect to the playwright process at port $"
                ++ fmt_port port_))
  end.

(** [@cached_property]: the slot is read when filled; otherwise the body
    runs and its value is stored when it returns one, not when it raises. *)
Definition cached_property (f : M Popen) : M Popen :=
  fun s =>
    match cached_process s with
    | Some p => (Ok p, s)
    | None =>
        match f s with
        | (Ok p, s1) =>
            (Ok p, {| ROBOT_OUTPUT_DIR := ROBOT_OUTPUT_DIR s1; port := port s1;
                      cached_process := Some p; trace := trace s1 |})
        | (Raise e, s1) => (Raise e, s1)
        end
    end.

(** [self._playwright_process] (lines 92-120). *)
Definition _playwright_process (E : Env) : M Popen :=
  cached_property (_playwright_process_body E).

(** [_close] (lines 122-125). *)
Definition _close (E : Env) : M unit :=
  logger_debug "Closing Playwright process" ;;;
  popen <- _playwright_process E ;;
  kill popen ;;;
  logger_debug "Playwright process killed".

(** [insecure_stub] (lines 129-135). *)
Definition insecure_stub (E : Env) : contextmanager PlaywrightStub Channel :=
  {| before_yield :=
       popen <- _playwright_process E ;;
       rc <- poll E popen ;;
       match rc with
       | Some _ => raise (ConnectionError "Playwright process has been terminated")
       | None =>
           port_ <- get_port ;;
           channel <- insecure_channel ("localhost:" ++ fmt_port port_) ;;
           ret ({| stub_channel := channel |}, channel)
       end;
     after_yield := fun channel => channel_close channel |}.

(** [url or ""]. *)
Definition or_empty (url : option string) : string :=
  match url with
  | Some u => u
  | None => ""
  end.

(** [open_browser] (lines 138-149). *)
Definition open_browser (E : Env) (browser : string) (url : option string)
    : M unit :=
  let browser_ := PyStr.strip (PyStr.lower browser) in
  if negb (PyStr.mem browser_ _SUPPORTED_BROWSERS) then
    raise (ValueError (browser ++ " is not supported, "
                       ++ "it should be one of: "
                       ++ PyStr.join ", " _SUPPORTED_BROWSERS))
  else
    with_ (insecure_stub E) (fun stub =>
      response <- unary_call E stub OpenBrowser
                    (openBrowserRequest (or_empty url) browser_) ;;
      logger_info (log response)).

(** The default of the [browser] parameter (line 138). *)
Definition open_browser_default : string := "Chrome".

(** [close_browser] (lines 151-154). *)
Definition close_browser (E : Env) : M unit :=
  with_ (insecure_stub E) (fun stub =>
    response <- unary_call E stub CloseBrowser Empty ;;
    logger_info (log response)).

(** [go_to] (lines 156-159). *)
Definition go_to (E : Env) (url : string) : M unit :=
  with_ (insecure_stub E) (fun stub =>
    response <- unary_call E stub GoTo (goToRequest url) ;;
    logger_info (log response)).

(** [input_text] (lines 162-167). *)
Definition input_text (E : Env) (selector text : string) : M unit :=
  with_ (insecure_stub E) (fun stub =>
    response <- unary_call E stub InputText (inputTextRequest text selector) ;;
    logger_info (log response)).

(** [click_button] (lines 169-174). *)
Definition click_button (E : Env) (selector : string) : M unit :=
  with_ (insecure_stub E) (fun stub =>
    response <- unary_call E stub ClickButton (selectorRequest selector) ;;
    logger_info (log response)).

(** [location_should_be] (lines 177-183). *)
Definition location_should_be (E : Env) (url : string) : M unit :=
  with_ (insecure_stub E) (fun stub =>
    response <- unary_call E stub GetUrl Empty ;;
    let page_url := body response in
    if negb (String.eqb url page_url) then
      raise (AssertionError ("URL should be `" ++ url ++ "`  but was `"
                             ++ page_url ++ "`"))
    else ret tt).

(** [textfield_value_should_be] (lines 185-196). *)
Definition textfield_value_should_be (E : Env) (selector text : string)
    : M unit :=
  with_ (insecure_stub E) (fun stub =>
    response <- unary_call E stub GetInputValue (selectorRequest selector) ;;
    logger_info (log response) ;;;
    if negb (String.eqb (body response) text) then
      raise (AssertionError ("Textfield " ++ selector ++ " content should be "
                             ++ text ++ " but was `" ++ body response ++ "`"))
    else ret tt).

(** [title_should_be] (lines 198-205). *)
Definition title_should_be (E : Env) (title : string) : M unit :=
  with_ (insecure_stub E) (fun stub =>
    response <- unary_call E stub GetTitle Empty ;;
    logger_info (log response) ;;;
    if negb (String.eqb (body response) title) then
      raise (AssertionError ("Title should be " ++ title ++ " but was `"
                             ++ body response ++ "`"))
    else ret tt).

(** [page_should_contain] (lines 207-214). *)
Definition page_should_contain (E : Env) (text : string) : M unit :=
  with_ (insecure_stub E) (fun stub =>
    response <- unary_call E stub GetTextContent
                  (selectorRequest ("text=" ++ text)) ;;
    logger_info (log response) ;;;
    if negb (String.eqb (body response) text) then
      raise (AssertionError ("No element with text `" ++ text ++ "` on page"))
    else ret tt).

(** A call on the instance: the nine keywords (an omitted [browser] is
    [None], an omitted [url] is Python's [None]) and [_close]. *)
Inductive call : Type :=
| Call_open_browser (browser : option string) (url : option string)
| Call_close_browser
| Call_go_to (url : string)
| Call_input_text (selector text : string)
| Call_click_button (selector : string)
| Call_location_should_be (url : string)
| Call_textfield_value_should_be (selector text : string)
| Call_title_should_be (title : string)
| Call_page_should_contain (text : string)
| Call__close.

Definition run_call (E : Env) (c : call) : M unit :=
  match c with
  | Call_open_browser b u =>
      open_browser E (match b with Some x => x | None => open_browser_default end) u
  | Call_close_browser => close_browser E
  | Call_go_to u => go_to E u
  | Call_input_text sel t => input_text E sel t
  | Call_click_button sel => click_button E sel
  | Call_location_should_be u => location_should_be E u
  | Call_textfield_value_should_be sel t => textfield_value_should_be E sel t
  | Call_title_should_be t => title_should_be E t
  | Call_page_should_contain t => page_should_contain E t
  | Call__close => _close E
  end.

(** A test run: the calls in order; a call that raises fails its step and
    the run goes on with the next one on the same instance. *)
Fixpoint run_calls (E : Env) (cs : list call) (s : State) : State :=
  match cs with
  | [] => s
  | c :: r => run_calls E r (snd (run_call E c s))
  end.

(* ------------------------------------------------------------------ *)
(** ** Reading a trace *)

(** [s] with its trace replaced. *)
Definition with_trace (s : State) (t : list event) : State :=
  {| ROBOT_OUTPUT_DIR := ROBOT_OUTPUT_DIR s; port := port s;
     cached_process := cached_process s; trace := t |}.

Definition is_free_port (e : event) : bool :=
  match e with EvFreePort _ => true | _ => false end.

Definition is_kill (e : event) : bool :=
  match e with EvKill _ => true | _ => false end.

Definition is_kill_of (p : Popen) (e : event) : bool :=
  match e with EvKill q => Nat.eqb (pid p) (pid q) | _ => false end.

(** A health probe, and one that was answered. *)
Definition is_probe (e : event) : bool :=
  match e with EvRpc _ Health _ _ => true | _ => false end.

Definition is_probe_ok (e : event) : bool :=
  match e with EvRpc _ Health _ (Some _) => true | _ => false end.

Definition is_close_of (c : Channel) (e : event) : bool :=
  match e with EvChanClose d => Nat.eqb (cid c) (cid d) | _ => false end.

Definition is_open_of (c : Channel) (e : event) : bool :=
  match e with EvChanOpen d _ => Nat.eqb (cid c) (cid d) | _ => false end.

(** The channel an event is about. *)
Definition chan_of (e : event) : option Channel :=
  match e with
  | EvChanOpen c _ | EvChanClose c | EvRpc c _ _ _ => Some c
  | _ => None
  end.

(** What the health loop does to the world: channels, probes, sleeps and
    the log line of line 112. *)
Definition probe_event (e : event) : bool :=
  match e with
  | EvChanOpen _ _ | EvChanClose _ | EvRpc _ Health Empty _
  | EvSleep _ | EvLog INFO _ => true
  | _ => false
  end.

(** Channels are numbered in the order they are opened and used only once
    opened: the invariant of the traces the class produces. *)
Fixpoint chans_in_order (t : list event) : bool :=
  match t with
  | [] => true
  | e :: r =>
      chans_in_order r
      && match e with
         | EvChanOpen c _ => Nat.eqb (cid c) (count is_chan_open r)
         | EvChanClose c | EvRpc c _ _ _ => Nat.ltb (cid c) (count is_chan_open r)
         | _ => true
         end
  end.

(** The requests of the keywords in a trace, newest first: every unary call
    but the health probes of the start. *)
Fixpoint requests (t : list event) : list (method * message) :=
  match t with
  | [] => []
  | EvRpc _ Health _ _ :: r => requests r
  | EvRpc _ m req _ :: r => (m, req) :: requests r
  | _ :: r => requests r
  end.

(** A call that reaches [self._playwright_process]: every call but
    [open_browser] with a name outside the supported set. *)
Definition needs_process (c : call) : bool :=
  match c with
  | Call_open_browser b _ =>
      PyStr.mem
        (PyStr.strip
           (PyStr.lower (match b with Some x => x | None => open_browser_default end)))
        _SUPPORTED_BROWSERS
  | _ => true
  end.

(** The first things [_playwright_process] does from state [s], as events:
    the log line of line 96, the log file, the port, the process. *)
Definition start_log (E : Env) : event :=
  EvLog INFO ("Starting Playwright process "
              ++ PyStr.path_join (PyStr.path_join (module_dir E) "wrapper")
                   "index.js").

Definition log_path (s : State) : string :=
  PyStr.path_join (ROBOT_OUTPUT_DIR s) "playwright-log.txt".

(** The port [find_free_port] hands out in a start from [s]. *)
Definition start_port (E : Env) (s : State) : N :=
  find_free_port E (EvOpenFile (log_path s) "w" :: start_log E :: trace s).

(** The process a start from [s] spawns. *)
Definition start_popen (s : State) : Popen :=
  {| pid := count is_spawn (trace s) |}.

Definition start_events (E : Env) (s : State) : list event :=
  [ EvSpawn (start_popen s)
      ["node"; PyStr.path_join (PyStr.path_join (module_dir E) "wrapper")
                 "index.js"]
      (PyStr.path_join (module_dir E) "wrapper")
      [("PORT", PyStr.of_N (start_port E s)); ("PATH", environ_PATH E)]
      (log_path s);
    EvFreePort (start_port E s);
    EvOpenFile (log_path s) "w";
    start_log E ].

(** The state a start from [s] leaves: the port of this start, the slot
    [slot], and the probes [delta] on top of [start_events]. *)
Definition after_start (E : Env) (s : State) (slot : option Popen)
    (delta : list event) : State :=
  {| ROBOT_OUTPUT_DIR := ROBOT_OUTPUT_DIR s;
     port := Some (PyStr.of_N (start_port E s));
     cached_process := slot;
     trace := delta ++ start_events E s ++ trace s |}.

(** The message of the error of lines 118-120 for a start from [s]. *)
Definition timeout_message (E : Env) (s : State) : string :=
  "Could not connect to the playwright process at port $"
  ++ PyStr.of_N (start_port E s).

(** The state in which a call reaches [self._playwright_process]: [_close]
    has logged its first line by then, a keyword has done nothing. *)
Definition call_entry (c : call) (s : State) : State :=
  match c with
  | Call__close =>
      with_trace s (EvLog DEBUG "Closing Playwright process" :: trace s)
  | _ => s
  end.

(* ------------------------------------------------------------------ *)
(** ** A mock engine, for running the class on concrete inputs *)

(** The engine answers a health probe once [ready_after] probes have been
    made, answers every other call with [reply], allocates ports 50051,
    50052, ..., and a process is reported dead once it has been killed. *)
Definition mock (ready_after : nat) (reply : Response) : Env :=
  {| module_dir := "/site-packages/Playwright";
     environ_PATH := "/usr/bin";
     output_dir := "/results";
     find_free_port := fun h => (50051 + N.of_nat (count is_free_port h))%N;
     rpc_reply := fun h m _ =>
       match m with
       | Health => if (ready_after <=? count is_probe h)%nat
                   then Some {| log := "alive"; body := "" |} else None
       | _ => Some reply
       end;
     os_poll := fun h p => if existsb (is_kill_of p) h then Some (-9)%Z else None;
     show_response := fun r => log r |}.

(** The instance after its first successful start on a mock whose engine
    is ready at once. *)
Definition started (reply : Response) : State :=
  snd (_playwright_process (mock 0 reply) (__init__ (mock 0 reply))).

(** A run on the mock: the engine is ready at once and answers every
    request with the URL of the page. *)
Definition demo_reply : Response :=
  {| log := "done"; body := "https://example.com" |}.

Definition demo_env : Env := mock 0 demo_reply.

(** The started instance with a session entered: channel 1 is open. *)
Definition demo_session : State :=
  snd (before_yield (insecure_stub demo_env) (started demo_reply)).

(** A mock whose engine answers no probe of the first start. *)
Definition slow_env : Env := mock 50 demo_reply.

(** A health probe that was not answered. *)
Definition is_probe_failed (e : event) : bool :=
  match e with EvRpc _ Health _ None => true | _ => false end.

Definition is_chan_close (e : event) : bool :=
  match e with EvChanClose _ => true | _ => false end.

(** The time spent in [time.sleep], in milliseconds. *)
Fixpoint slept (t : list event) : nat :=
  match t with
  | [] => 0
  | EvSleep millis :: r => millis + slept r
  | _ :: r => slept r
  end.

(** Nothing happens on a channel once it is closed: no event names a
    channel that an older event closed. *)
Fixpoint closed_last (t : list event) : bool :=
  match t with
  | [] => true
  | e :: r =>
      closed_last r
      && match chan_of e with
         | Some c => negb (existsb (is_close_of c) r)
         | None => true
         end
  end.

(** The keywords that compare the body of the answer. *)
Definition is_assertion (c : call) : bool :=
  match c with
  | Call_location_should_be _ | Call_textfield_value_should_be _ _
  | Call_title_should_be _ | Call_page_should_contain _ => true
  | _ => false
  end.

(** A mock whose engine answers nothing at all. *)
Definition silent_env : Env :=
  {| module_dir := module_dir demo_env;
     environ_PATH := environ_PATH demo_env;
     output_dir := output_dir demo_env;
     find_free_port := find_free_port demo_env;
     rpc_reply := fun _ _ _ => None;
     os_poll := os_poll demo_env;
     show_response := show_response demo_env |}.

(* ------------------------------------------------------------------ *)
(** ** Lists of events *)

Lemma count_app (f : event -> bool) (a b : list event) :
  count f (a ++ b) = count f a + count f b.
Proof.
  unfold count. rewrite filter_app, length_app. reflexivity.
Qed.

Lemma count_cons (f : event -> bool) (e : event) (t : list event) :
  count f (e :: t) = (if f e then 1 else 0) + count f t.
Proof.
  unfold count. simpl. destruct (f e); reflexivity.
Qed.

Lemma forallb_count_zero (f g : event -> bool) (t : list event) :
  forallb f t = true -> (forall e, f e = true -> g e = false) ->
  count g t = 0.
Proof.
  intros Hall Hfg. induction t as [|x t IH]; [reflexivity|].
  simpl in Hall. apply andb_true_iff in Hall as [Hx Ht].
  rewrite count_cons, (Hfg x Hx). simpl. apply IH, Ht.
Qed.

(* ------------------------------------------------------------------ *)
(** ** The health loop *)

(** One turn, written out: the channel opened for it is the next one, the
    probe goes to the port of the instance, and the channel is closed on
    both ways out. *)
Lemma health_probe_eq (E : Env) (popen : Popen) (s : State) :
  let c := {| cid := count is_chan_open (trace s) |} in
  let h := EvChanOpen c ("localhost:" ++ fmt_port (port s)) :: trace s in
  health_probe E popen s =
  match rpc_reply E h Health Empty with
  | Some resp =>
      (Ok (Some popen),
       with_trace s
         (EvChanClose c
          :: EvLog INFO ("Connected to the playwright process at port $"
                         ++ fmt_port (port s) ++ ": $" ++ show_response E resp)
          :: EvRpc c Health Empty (Some resp) :: h))
  | None =>
      (Ok None,
       with_trace s
         (EvChanClose c :: EvSleep 100 :: EvRpc c Health Empty None :: h))
  end.
Proof.
  intros c h. unfold health_probe, with_channel, try_except_RpcError.
  unfold bind, get_port, insecure_channel, history, emit, ret. cbn [trace port].
  unfold unary_call, bind, history, emit. cbn [trace port stub_channel].
  fold c. fold h.
  destruct (rpc_reply E h Health Empty) as [resp|]; reflexivity.
Qed.

(** The loop of line 107 with [n] turns: it ends, it touches only the trace,
    it makes at most [n] probes, and it ends either at the first answered
    probe (the newest one) or after [n] unanswered ones. *)
Lemma health_loop_spec (E : Env) (popen : Popen) (n : nat) :
  forall s, exists delta r,
    health_loop E popen n s = (Ok r, with_trace s (delta ++ trace s))
    /\ forallb probe_event delta = true
    /\ count is_probe delta <= n
    /\ ((r = Some popen /\ count is_probe_ok delta = 1
         /\ exists c msg resp rest,
              delta = EvChanClose c :: EvLog INFO msg
                        :: EvRpc c Health Empty (Some resp) :: rest)
        \/ (r = None /\ count is_probe delta = n
            /\ count is_probe_ok delta = 0)).
Proof.
  induction n as [|n IH]; intros s.
  - exists [], None. simpl. destruct s; repeat split; auto.
  - cbn [health_loop]. unfold bind at 1. rewrite health_probe_eq.
    set (c := {| cid := count is_chan_open (trace s) |}).
    set (h := EvChanOpen c ("localhost:" ++ fmt_port (port s)) :: trace s).
    destruct (rpc_reply E h Health Empty) as [resp|].
    + eexists [_; _; _; _], (Some popen). unfold ret, h.
      split; [reflexivity|]. split; [reflexivity|].
      split; [cbn; lia|]. left. split; [reflexivity|]. split; [reflexivity|].
      do 4 eexists. reflexivity.
    + destruct (IH (with_trace s
                      (EvChanClose c :: EvSleep 100
                       :: EvRpc c Health Empty None :: h)))
        as (delta & r & Heq & Hall & Hle & Hcases).
      exists (delta ++ [EvChanClose c; EvSleep 100;
                        EvRpc c Health Empty None;
                        EvChanOpen c ("localhost:" ++ fmt_port (port s))])%list, r.
      rewrite Heq. cbn [trace with_trace ROBOT_OUTPUT_DIR port cached_process].
      unfold h. rewrite <- app_assoc. split; [reflexivity|].
      split; [rewrite forallb_app, Hall; reflexivity|].
      rewrite !count_app. change (count is_probe [_; _; _; _]) with 1.
      change (count is_probe_ok [_; _; _; _]) with 0.
      split; [destruct Hcases as [(_ & _ & _)|(_ & Hn & _)]; lia|].
      destruct Hcases as [(Hr & Hok & c' & msg & resp & rest & Hd)
                         |(Hr & Hn & Hok)].
      * left. split; [exact Hr|]. split; [lia|].
        exists c', msg, resp. eexists. rewrite Hd. reflexivity.
      * right. split; [exact Hr|]. split; lia.
Qed.

(* ------------------------------------------------------------------ *)
(** ** The lazy start *)

(** Runs the straight-line part of a monadic term. *)
Ltac run_monad :=
  cbv beta iota zeta delta
    [bind ret raise emit get_port set_port get_output_dir history
     logger_info logger_debug open_w call_find_free_port Popen_new
     insecure_channel channel_close unary_call sleep poll kill
     insecure_stub after_yield];
  cbn [with_trace trace port ROBOT_OUTPUT_DIR cached_process stub_channel
       fst snd].

(** A filled slot is returned as it is: nothing runs. *)
Lemma start_cached (E : Env) (s : State) (h : Popen) :
  cached_process s = Some h -> _playwright_process E s = (Ok h, s).
Proof.
  intros H. unfold _playwright_process, cached_property. rewrite H. reflexivity.
Qed.

(** An empty slot runs the body: [start_events], then at most 50 probes;
    the handle is stored when a probe was answered, and the slot stays empty
    when the error of line 118 is raised. *)
Lemma start_spec (E : Env) (s : State) :
  cached_process s = None ->
  exists delta,
    forallb probe_event delta = true
    /\ count is_probe delta <= 50
    /\ ((_playwright_process E s
         = (Ok (start_popen s), after_start E s (Some (start_popen s)) delta)
         /\ count is_probe_ok delta = 1
         /\ exists c msg resp rest,
              delta = EvChanClose c :: EvLog INFO msg
                        :: EvRpc c Health Empty (Some resp) :: rest)
        \/ (_playwright_process E s
            = (Raise (RuntimeError (timeout_message E s)), after_start E s None delta)
            /\ count is_probe delta = 50
            /\ count is_probe_ok delta = 0)).
Proof.
  destruct s as [dir port_ slot t]. cbn [cached_process]. intros ->.
  unfold _playwright_process, cached_property. cbn [cached_process].
  unfold _playwright_process_body. run_monad.
  match goal with
  | |- context [health_loop E ?p 50 ?s0] =>
      destruct (health_loop_spec E p 50 s0) as (delta & r & Heq & Hall & Hle & Hc);
      rewrite Heq
  end.
  exists delta. split; [exact Hall|]. split; [exact Hle|].
  run_monad.
  destruct Hc as [(-> & Hok & Hshape) | (-> & Hn & Hok)].
  - left. split; [|split; assumption]. reflexivity.
  - right. split; [|split; assumption]. reflexivity.
Qed.

(** A start that returns a handle leaves it in the slot. *)
Lemma start_ok_cached (E : Env) (s s0 : State) (h : Popen) :
  _playwright_process E s = (Ok h, s0) -> cached_process s0 = Some h.
Proof.
  destruct (cached_process s) as [h'|] eqn:Hslot.
  - rewrite (start_cached E s h' Hslot). intros [= <- <-]. exact Hslot.
  - destruct (start_spec E s Hslot)
      as (delta & _ & _ & [(Heq & _) | (Heq & _)]);
      rewrite Heq; intros [= <- <-]; reflexivity.
Qed.

(** A start raises nothing but the error of line 118. *)
Lemma start_raise_timeout (E : Env) (s s0 : State) (e : exn) :
  _playwright_process E s = (Raise e, s0) ->
  cached_process s = None /\ e = RuntimeError (timeout_message E s)
  /\ cached_process s0 = None.
Proof.
  destruct (cached_process s) as [h'|] eqn:Hslot.
  - rewrite (start_cached E s h' Hslot). discriminate.
  - destruct (start_spec E s Hslot)
      as (delta & _ & _ & [(Heq & _) | (Heq & _)]);
      rewrite Heq; [discriminate|]. intros [= <- <-]. auto.
Qed.

(* ------------------------------------------------------------------ *)
(** ** The session *)

(** [insecure_stub] up to its yield, once the process is started: one poll,
    then either the error or the next channel, opened to the port of the
    instance. *)
Lemma enter_started (E : Env) (s : State) (h : Popen) :
  cached_process s = Some h ->
  before_yield (insecure_stub E) s =
  match os_poll E (trace s) h with
  | Some rc =>
      (Raise (ConnectionError "Playwright process has been terminated"),
       with_trace s (EvPoll h (Some rc) :: trace s))
  | None =>
      let c := {| cid := count is_chan_open (trace s) |} in
      (Ok ({| stub_channel := c |}, c),
       with_trace s (EvChanOpen c ("localhost:" ++ fmt_port (port s))
                     :: EvPoll h None :: trace s))
  end.
Proof.
  intros Hslot. unfold insecure_stub. cbn [before_yield].
  unfold bind at 1. rewrite (start_cached E s h Hslot).
  run_monad. destruct s as [dir port_ slot t]. run_monad.
  destruct (os_poll E t h); reflexivity.
Qed.

(** A [with self.insecure_stub() as stub] block, once the process is
    started: the channel is closed after a block that ends normally and is
    left as it is after a block that raises. *)
Lemma with_started {A} (E : Env) (body : PlaywrightStub -> M A)
    (s : State) (h : Popen) :
  cached_process s = Some h ->
  with_ (insecure_stub E) body s =
  match os_poll E (trace s) h with
  | Some rc =>
      (Raise (ConnectionError "Playwright process has been terminated"),
       with_trace s (EvPoll h (Some rc) :: trace s))
  | None =>
      let c := {| cid := count is_chan_open (trace s) |} in
      match body {| stub_channel := c |}
              (with_trace s (EvChanOpen c ("localhost:" ++ fmt_port (port s))
                             :: EvPoll h None :: trace s)) with
      | (Ok a, s2) => (Ok a, with_trace s2 (EvChanClose c :: trace s2))
      | (Raise e, s2) => (Raise e, s2)
      end
  end.
Proof.
  intros Hslot. unfold with_. rewrite (enter_started E s h Hslot).
  destruct (os_poll E (trace s) h); [reflexivity|].
  cbv zeta. cbn [after_yield insecure_stub].
  match goal with |- context [body ?x ?y] => destruct (body x y) as [[a|e] s2] end;
    reflexivity.
Qed.

(** A block on an instance whose process is not started yet starts it and
    goes on as on the started instance; a failed start ends the call. *)
Lemma with_lazy {A} (E : Env) (body : PlaywrightStub -> M A) (s : State) :
  with_ (insecure_stub E) body s =
  match _playwright_process E s with
  | (Ok _, s0) => with_ (insecure_stub E) body s0
  | (Raise e, s0) => (Raise e, s0)
  end.
Proof.
  destruct (_playwright_process E s) as [[h|e] s0] eqn:Hstart.
  - pose proof (start_ok_cached E s s0 h Hstart) as Hslot.
    unfold with_, insecure_stub. cbn [before_yield after_yield].
    remember (fun popen : Popen => bind (poll E popen) _) as k eqn:Hk.
    unfold bind. rewrite Hstart, (start_cached E s0 h Hslot). reflexivity.
  - unfold with_, insecure_stub. cbn [before_yield].
    unfold bind at 1. rewrite Hstart. reflexivity.
Qed.

(* ------------------------------------------------------------------ *)
(** ** Channel numbering *)

Lemma chans_in_order_bound (t : list event) :
  chans_in_order t = true ->
  forall e c, In e t -> chan_of e = Some c -> cid c < count is_chan_open t.
Proof.
  induction t as [|x t IH]; intros Hwf e c Hin Hc; [destruct Hin|].
  cbn [chans_in_order] in Hwf. apply andb_true_iff in Hwf as [Ht Hx].
  rewrite count_cons. destruct Hin as [-> | Hin].
  - destruct e; cbn in Hc; try discriminate; injection Hc as ->; cbn.
    + apply Nat.eqb_eq in Hx. lia.
    + apply Nat.ltb_lt in Hx. lia.
    + apply Nat.ltb_lt in Hx. lia.
  - specialize (IH Ht e c Hin Hc). lia.
Qed.

(** The next channel is named nowhere in a trace that is in order. *)
Lemma next_channel_fresh (t : list event) :
  chans_in_order t = true ->
  forall e, In e t -> chan_of e <> Some {| cid := count is_chan_open t |}.
Proof.
  intros Hwf e Hin Hc.
  pose proof (chans_in_order_bound t Hwf e _ Hin Hc) as Hlt. cbn in Hlt. lia.
Qed.

Lemma next_channel_not_closed (t : list event) :
  chans_in_order t = true ->
  count (is_close_of {| cid := count is_chan_open t |}) t = 0.
Proof.
  intros Hwf. set (n := count is_chan_open t).
  assert (Hb : forall e, In e t -> is_close_of {| cid := n |} e = false).
  { intros e Hin. destruct e as [| | | | |c| | | |]; try reflexivity.
    cbn. apply Nat.eqb_neq. intros Hn.
    apply (next_channel_fresh t Hwf _ Hin). cbn. fold n. rewrite Hn.
    destruct c; reflexivity. }
  clearbody n. clear Hwf. induction t as [|x t IH]; [reflexivity|].
  rewrite count_cons, (Hb x (or_introl eq_refl)). cbn.
  apply IH. intros e Hin. apply Hb. right. exact Hin.
Qed.

(** Discharges [chans_in_order] of a trace grown by explicit events. *)
Ltac in_order :=
  repeat match goal with
    | H : chans_in_order ?t = true |- chans_in_order ?t = true => exact H
    | |- chans_in_order (_ :: _) = true => cbn [chans_in_order cid]
    | |- andb _ _ = true => apply andb_true_iff; split
    | |- Nat.eqb _ _ = true =>
        apply Nat.eqb_eq; rewrite ?count_cons; cbn [is_chan_open cid]; lia
    | |- Nat.ltb _ _ = true =>
        apply Nat.ltb_lt; rewrite ?count_cons; cbn [is_chan_open cid]; lia
    | |- true = true => reflexivity
    end.

Lemma health_loop_in_order (E : Env) (popen : Popen) (n : nat) :
  forall s, chans_in_order (trace s) = true ->
            chans_in_order (trace (snd (health_loop E popen n s))) = true.
Proof.
  induction n as [|n IH]; intros s Hwf; [exact Hwf|].
  cbn [health_loop]. unfold bind at 1. rewrite health_probe_eq.
  destruct (rpc_reply E _ Health Empty) as [resp|].
  - cbn [snd ret trace with_trace]. in_order.
  - apply IH. cbn [trace with_trace]. in_order.
Qed.

Lemma start_in_order (E : Env) (s : State) :
  chans_in_order (trace s) = true ->
  chans_in_order (trace (snd (_playwright_process E s))) = true.
Proof.
  intros Hwf. destruct s as [dir port_ [h|] t].
  - unfold _playwright_process, cached_property. exact Hwf.
  - unfold _playwright_process, cached_property. cbn [cached_process].
    unfold _playwright_process_body. run_monad.
    match goal with
    | |- context [health_loop E ?p 50 ?s0] =>
        pose proof (health_loop_in_order E p 50 s0) as Hloop;
        destruct (health_loop E p 50 s0) as [[[ready|]|e] s1]
    end; run_monad; cbn [snd trace] in Hloop; apply Hloop; cbn [trace]; in_order.
Qed.

(* ------------------------------------------------------------------ *)
(** ** Calls on a started instance *)

(** Splits a call on an instance whose slot holds [h] into its outcomes:
    process dead, call failed, call answered (assertion met or not). *)
Ltac started_call E s h Hslot c :=
  destruct c as [b u| |u|sel txt|sel|u|sel txt|ti|txt|];
  cbn [run_call needs_process] in *;
  unfold open_browser, close_browser, go_to, input_text, click_button,
    location_should_be, textfield_value_should_be, title_should_be,
    page_should_contain, _close;
  try match goal with
    | Hn : PyStr.mem ?x ?l = true |- context [PyStr.mem ?x ?l] =>
        rewrite Hn; cbn [negb]
    end;
  try rewrite (with_started E _ s h Hslot);
  destruct s as [dir port_ slot t]; cbn [cached_process] in Hslot; subst slot;
  cbn [trace port];
  unfold _playwright_process, cached_property;
  try match goal with
    | |- context [os_poll E ?t ?h] => destruct (os_poll E t h) as [rc|] eqn:Hpoll
    end;
  run_monad;
  try match goal with
    | |- context [rpc_reply E ?t ?m ?r] =>
        destruct (rpc_reply E t m r) as [resp|] eqn:Hreply
    end;
  run_monad;
  try match goal with
    | |- context [negb (String.eqb ?a ?b)] =>
        destruct (String.eqb a b) eqn:Heqb; cbn [negb]
    end;
  run_monad.

(** On a started instance no call touches the slot or the port, allocates a
    port, or spawns. *)
Lemma started_stable (E : Env) (s : State) (h : Popen) (c : call) :
  cached_process s = Some h ->
  let s' := snd (run_call E c s) in
  cached_process s' = Some h /\ port s' = port s
  /\ ROBOT_OUTPUT_DIR s' = ROBOT_OUTPUT_DIR s
  /\ count is_spawn (trace s') = count is_spawn (trace s)
  /\ count is_free_port (trace s') = count is_free_port (trace s).
Proof.
  intros Hslot.
  destruct (needs_process c) eqn:Hneeds.
  - started_call E s h Hslot c; repeat split.
  - destruct c as [b u| | | | | | | | |]; try discriminate.
    cbn [run_call needs_process] in *. unfold open_browser.
    rewrite Hneeds. cbn [negb raise snd]. auto.
Qed.

Lemma started_in_order (E : Env) (s : State) (h : Popen) (c : call) :
  cached_process s = Some h -> needs_process c = true ->
  chans_in_order (trace s) = true ->
  chans_in_order (trace (snd (run_call E c s))) = true.
Proof.
  intros Hslot Hneeds Hwf.
  started_call E s h Hslot c; cbn [trace] in Hwf; in_order.
Qed.

(* ------------------------------------------------------------------ *)
(** ** Calls on any instance *)

(** A keyword that reaches the process starts it when it must, and goes on
    as on the started instance; a failed start ends the call. *)
Lemma run_call_lazy (E : Env) (c : call) (s : State) :
  needs_process c = true -> c <> Call__close ->
  run_call E c s =
  match _playwright_process E s with
  | (Ok _, s0) => run_call E c s0
  | (Raise e, s0) => (Raise e, s0)
  end.
Proof.
  intros Hneeds Hc.
  destruct c as [b u| | | | | | | | |]; try congruence;
    cbn [run_call needs_process] in *;
    unfold open_browser, close_browser, go_to, input_text, click_button,
      location_should_be, textfield_value_should_be, title_should_be,
      page_should_contain;
    try (rewrite Hneeds; cbn [negb]); apply with_lazy.
Qed.

(** [_close] logs, reaches the process (starting it when the slot is
    empty), kills it and logs again. *)
Lemma _close_eq (E : Env) (s : State) :
  _close E s =
  match _playwright_process E
          (with_trace s (EvLog DEBUG "Closing Playwright process" :: trace s)) with
  | (Ok h, s0) =>
      (Ok tt, with_trace s0 (EvLog DEBUG "Playwright process killed"
                             :: EvKill h :: trace s0))
  | (Raise e, s0) => (Raise e, s0)
  end.
Proof.
  unfold _close, with_trace. run_monad.
  match goal with
  | |- context [_playwright_process E ?x] =>
      destruct (_playwright_process E x) as [[h|e] s0]
  end; reflexivity.
Qed.

Lemma run_call_in_order (E : Env) (c : call) (s : State) :
  chans_in_order (trace s) = true ->
  chans_in_order (trace (snd (run_call E c s))) = true.
Proof.
  intros Hwf. destruct (needs_process c) eqn:Hneeds.
  - destruct c as [b u| | | | | | | | |];
      try (match goal with
           | |- context [run_call E ?c s] =>
               rewrite (run_call_lazy E c s Hneeds ltac:(discriminate));
               pose proof (start_in_order E s Hwf) as Hstart;
               destruct (_playwright_process E s) as [[h|e] s0] eqn:Hs;
               [ apply (started_in_order E s0 h);
                 [exact (start_ok_cached E s s0 h Hs) | exact Hneeds | exact Hstart]
               | exact Hstart ]
           end).
    cbn [run_call]. rewrite _close_eq.
    match goal with
    | |- context [_playwright_process E ?x] =>
        pose proof (start_in_order E x) as Hstart;
        destruct (_playwright_process E x) as [[h|e] s0]
    end; cbn [snd trace with_trace] in *.
    + in_order. apply Hstart. in_order.
    + apply Hstart. in_order.
  - destruct c as [b u| | | | | | | | |]; try discriminate.
    cbn [run_call needs_process] in *. unfold open_browser.
    rewrite Hneeds. exact Hwf.
Qed.

(** Every trace a run produces from a new instance has its channels in
    order. *)
Lemma run_calls_in_order (E : Env) (cs : list call) :
  forall s, chans_in_order (trace s) = true ->
            chans_in_order (trace (run_calls E cs s)) = true.
Proof.
  induction cs as [|c cs IH]; intros s Hwf; [exact Hwf|].
  cbn [run_calls]. apply IH, run_call_in_order, Hwf.
Qed.

(* ------------------------------------------------------------------ *)
(** ** What a start does *)

(** A start from an empty slot allocates one port, spawns one process with
    it, kills nothing, and leaves that port in the instance. *)
Lemma start_effects (E : Env) (s : State) :
  cached_process s = None ->
  let out := _playwright_process E s in
  count is_spawn (trace (snd out)) = S (count is_spawn (trace s))
  /\ count is_free_port (trace (snd out)) = S (count is_free_port (trace s))
  /\ count is_kill (trace (snd out)) = count is_kill (trace s)
  /\ port (snd out) = Some (PyStr.of_N (start_port E s))
  /\ (exists delta, trace (snd out) = (delta ++ start_events E s ++ trace s)%list)
  /\ ((fst out = Ok (start_popen s)
       /\ cached_process (snd out) = Some (start_popen s))
      \/ (fst out = Raise (RuntimeError (timeout_message E s))
          /\ cached_process (snd out) = None)).
Proof.
  intros Hslot. cbv zeta.
  destruct (start_spec E s Hslot)
    as (delta & Hall & _ & [(Heq & _) | (Heq & _)]);
    rewrite Heq; cbn [fst snd after_start trace port cached_process];
    rewrite !count_app;
    rewrite (forallb_count_zero probe_event is_spawn delta Hall),
            (forallb_count_zero probe_event is_free_port delta Hall),
            (forallb_count_zero probe_event is_kill delta Hall);
    try (intros [[]| | | | | | | | |]; intros; try reflexivity; discriminate);
    repeat split; eauto.
Qed.

(** Builds the new part of a trace that grew by explicit events. *)
Ltac prefix_of l t :=
  lazymatch l with
  | t => constr:(@nil event)
  | ?e :: ?r => let d := prefix_of r t in constr:(e :: d)
  end.

Ltac give_delta :=
  match goal with
  | |- exists d, ?l = (d ++ ?t)%list =>
      let d := prefix_of l t in exists d; reflexivity
  end.

(** A call only adds to the trace of a started instance. *)
Lemma started_extends (E : Env) (s : State) (h : Popen) (c : call) :
  cached_process s = Some h ->
  exists delta, trace (snd (run_call E c s)) = (delta ++ trace s)%list.
Proof.
  intros Hslot. destruct (needs_process c) eqn:Hneeds.
  - started_call E s h Hslot c; give_delta.
  - destruct c as [b u| | | | | | | | |]; try discriminate.
    cbn [run_call needs_process] in *. unfold open_browser.
    rewrite Hneeds. exists []. reflexivity.
Qed.

(** The first call that reaches the process on an instance with an empty
    slot runs one start, from [call_entry]: one port, one process spawned
    with it; the slot then holds that process and the instance that port,
    unless the start failed. *)
Lemma first_call_starts (E : Env) (c : call) (s : State) :
  cached_process s = None -> needs_process c = true ->
  let s' := snd (run_call E c s) in
  let p := PyStr.of_N (start_port E (call_entry c s)) in
  count is_spawn (trace s') = S (count is_spawn (trace s))
  /\ count is_free_port (trace s') = S (count is_free_port (trace s))
  /\ In (EvFreePort (start_port E (call_entry c s))) (trace s')
  /\ (exists args cwd out,
        In (EvSpawn (start_popen s) args cwd
              [("PORT", p); ("PATH", environ_PATH E)] out) (trace s'))
  /\ port s' = Some p
  /\ (cached_process s' = None \/ cached_process s' = Some (start_popen s)).
Proof.
  intros Hslot Hneeds. cbv zeta.
  assert (Hentry : cached_process (call_entry c s) = None)
    by (destruct c; exact Hslot).
  pose proof (start_effects E (call_entry c s) Hentry) as Hfx. cbv zeta in Hfx.
  assert (Hrun :
    run_call E c s
    = match _playwright_process E (call_entry c s) with
      | (Ok h, s0) =>
          match c with
          | Call__close =>
              (Ok tt, with_trace s0 (EvLog DEBUG "Playwright process killed"
                                     :: EvKill h :: trace s0))
          | _ => run_call E c s0
          end
      | (Raise e, s0) => (Raise e, s0)
      end).
  { destruct c as [b u| | | | | | | | |];
      try (rewrite (run_call_lazy E _ s Hneeds ltac:(discriminate));
           reflexivity).
    cbn [run_call call_entry]. apply _close_eq. }
  rewrite Hrun. clear Hrun.
  assert (Hcount : forall f, count f (trace (call_entry c s)) = count f (trace s)
                             \/ f (EvLog DEBUG "Closing Playwright process") = true).
  { intros f. destruct c; cbn [call_entry trace with_trace]; auto.
    rewrite count_cons. destruct (f _); auto. }
  assert (Hsp : count is_spawn (trace (call_entry c s)) = count is_spawn (trace s))
    by (destruct (Hcount is_spawn); [assumption | discriminate]).
  assert (Hfp : count is_free_port (trace (call_entry c s))
                = count is_free_port (trace s))
    by (destruct (Hcount is_free_port); [assumption | discriminate]).
  assert (Hpo : start_popen (call_entry c s) = start_popen s)
    by (unfold start_popen; rewrite Hsp; reflexivity).
  destruct (_playwright_process E (call_entry c s)) as [[h|e] s0] eqn:Hstart;
    cbn [fst snd] in Hfx;
    destruct Hfx as (Hs & Hf & _ & Hport & (delta & Htr) & Hres).
  - destruct Hres as [([= ->] & Hcached) | ([=] & _)].
    assert (Hin0 : forall e, In e (start_events E (call_entry c s)) ->
                             In e (trace s0)).
    { intros e He. rewrite Htr. apply in_or_app. right.
      apply in_or_app. left. exact He. }
    assert (Hgoal : forall s',
      (exists d, trace s' = (d ++ trace s0)%list) ->
      count is_spawn (trace s') = count is_spawn (trace s0) ->
      count is_free_port (trace s') = count is_free_port (trace s0) ->
      port s' = port s0 -> cached_process s' = cached_process s0 ->
      count is_spawn (trace s') = S (count is_spawn (trace s))
      /\ count is_free_port (trace s') = S (count is_free_port (trace s))
      /\ In (EvFreePort (start_port E (call_entry c s))) (trace s')
      /\ (exists args cwd out,
            In (EvSpawn (start_popen s) args cwd
                  [("PORT", PyStr.of_N (start_port E (call_entry c s)));
                   ("PATH", environ_PATH E)] out) (trace s'))
      /\ port s' = Some (PyStr.of_N (start_port E (call_entry c s)))
      /\ (cached_process s' = None \/ cached_process s' = Some (start_popen s))).
    { intros s' (d & Hd) Hs' Hf' Hp' Hc'.
      split; [lia|]. split; [lia|].
      split; [rewrite Hd; apply in_or_app; right; apply Hin0; cbn; tauto|].
      split.
      - do 3 eexists. rewrite Hd. apply in_or_app. right. apply Hin0.
        rewrite <- Hpo. left. reflexivity.
      - split; [congruence|]. right. rewrite Hc', Hcached, Hpo. reflexivity. }
    destruct c as [b u| | | | | | | | |];
      try (match goal with
           | |- context [run_call E ?k s0] =>
               pose proof (started_stable E s0 _ k Hcached) as Hst;
               cbv zeta in Hst;
               destruct Hst as (Hc1 & Hp1 & _ & Hs1 & Hf1);
               apply Hgoal;
               [eapply started_extends; exact Hcached
               | exact Hs1 | exact Hf1 | exact Hp1 | congruence]
           end).
    apply Hgoal; cbn [snd with_trace trace port cached_process]; auto.
    exists [EvLog DEBUG "Playwright process killed"; EvKill (start_popen (call_entry Call__close s))].
    reflexivity.
  - destruct Hres as [([=] & _) | (_ & Hcached)]. cbn [snd].
    split; [lia|]. split; [lia|].
    split; [rewrite Htr; apply in_or_app; right; cbn; tauto|].
    split.
    + do 3 eexists. rewrite Htr. apply in_or_app. right.
      rewrite <- Hpo. left. reflexivity.
    + split; [exact Hport | left; exact Hcached].
Qed.

(* ------------------------------------------------------------------ *)
(** ** Requests on the wire *)

Lemma requests_probe_events (delta t : list event) :
  forallb probe_event delta = true -> requests (delta ++ t) = requests t.
Proof.
  induction delta as [|e delta IH]; intros Hall; [reflexivity|].
  cbn [forallb] in Hall. apply andb_true_iff in Hall as [He Hd].
  destruct e as [l m|p md|p|p a c v o|c tg|c|c m r res|n|p rc|p];
    try discriminate; cbn [app requests]; auto.
  destruct m; try discriminate. auto.
Qed.

(** A start sends no request of a keyword. *)
Lemma start_requests (E : Env) (s : State) :
  requests (trace (snd (_playwright_process E s))) = requests (trace s).
Proof.
  destruct (cached_process s) as [h|] eqn:Hslot.
  - rewrite (start_cached E s h Hslot). reflexivity.
  - destruct (start_spec E s Hslot)
      as (delta & Hall & _ & [(Heq & _) | (Heq & _)]);
      rewrite Heq; cbn [snd after_start trace];
      rewrite (requests_probe_events delta _ Hall); reflexivity.
Qed.

Lemma enter_lazy (E : Env) (s : State) :
  before_yield (insecure_stub E) s =
  match _playwright_process E s with
  | (Ok _, s0) => before_yield (insecure_stub E) s0
  | (Raise e, s0) => (Raise e, s0)
  end.
Proof.
  destruct (_playwright_process E s) as [[h|e] s0] eqn:Hstart.
  - pose proof (start_ok_cached E s s0 h Hstart) as Hslot.
    unfold insecure_stub. cbn [before_yield].
    remember (fun popen : Popen => bind (poll E popen) _) as k eqn:Hk.
    unfold bind. rewrite Hstart, (start_cached E s0 h Hslot). reflexivity.
  - unfold insecure_stub. cbn [before_yield].
    unfold bind at 1. rewrite Hstart. reflexivity.
Qed.

(** [insecure_stub] up to its yield, from any state: it sends no request of
    a keyword; it yields a stub on the channel it keeps, with the process in
    the slot; and it raises nothing but the start and connection errors. *)
Lemma enter_spec (E : Env) (s s1 : State) (r : result (PlaywrightStub * Channel)) :
  before_yield (insecure_stub E) s = (r, s1) ->
  requests (trace s1) = requests (trace s)
  /\ match r with
     | Ok (stub, ch) =>
         stub = {| stub_channel := ch |}
         /\ exists h, cached_process s1 = Some h
     | Raise e =>
         (exists m, e = RuntimeError m) \/ (exists m, e = ConnectionError m)
     end.
Proof.
  rewrite enter_lazy. pose proof (start_requests E s) as Hreq.
  destruct (_playwright_process E s) as [[h|e] s0] eqn:Hstart; cbn [snd] in Hreq.
  - pose proof (start_ok_cached E s s0 h Hstart) as Hslot.
    rewrite (enter_started E s0 h Hslot).
    destruct (os_poll E (trace s0) h); intros [= <- <-]; cbn [trace with_trace requests];
      (split; [exact Hreq|]).
    + right. eexists. reflexivity.
    + split; [reflexivity|]. exists h. exact Hslot.
  - intros [= <- <-]. split; [exact Hreq|]. left.
    destruct (start_raise_timeout E s s0 e Hstart) as (_ & -> & _).
    eexists. reflexivity.
Qed.

Lemma mem_In (x : string) (l : list string) : PyStr.mem x l = true <-> In x l.
Proof.
  unfold PyStr.mem. rewrite existsb_exists. split.
  - intros (y & Hin & Heq). apply String.eqb_eq in Heq. subst. exact Hin.
  - intros Hin. exists x. split; [exact Hin | apply String.eqb_refl].
Qed.

(* ------------------------------------------------------------------ *)
(** ** Strings in messages *)

Lemma append_assoc (a b c : string) : (a ++ b) ++ c = a ++ b ++ c.
Proof.
  induction a as [|x a IH]; [reflexivity|]. cbn. rewrite IH. reflexivity.
Qed.

Lemma contains_here (pre sub post : string) :
  PyStr.contains sub (pre ++ sub ++ post).
Proof. exists pre, post. reflexivity. Qed.

Lemma contains_after (pre sub s : string) :
  PyStr.contains sub s -> PyStr.contains sub (pre ++ s).
Proof.
  intros (a & b & ->). exists (pre ++ a), b. rewrite append_assoc. reflexivity.
Qed.

(* ------------------------------------------------------------------ *)
(** ** The claims *)

(** C3: the health-check loop of [_playwright_process] makes at most 50
    probes.  Either the handle is returned and stored, and then, when the
    start ran, the newest probe is the only answered one; or the error of
    line 118 is raised after exactly 50 probes, none answered.  The start is
    a total function: the loop always ends. *)
Theorem health_check_bounded (E : Env) (s : State) :
  exists delta,
    trace (snd (_playwright_process E s)) = (delta ++ trace s)%list
    /\ count is_probe delta <= 50
    /\ ((exists popen,
           fst (_playwright_process E s) = Ok popen
           /\ cached_process (snd (_playwright_process E s)) = Some popen
           /\ (cached_process s = None ->
               count is_probe_ok delta = 1
               /\ exists c msg resp rest,
                    delta = EvChanClose c :: EvLog INFO msg
                              :: EvRpc c Health Empty (Some resp) :: rest))
        \/ (fst (_playwright_process E s)
            = Raise (RuntimeError (timeout_message E s))
            /\ count is_probe delta = 50
            /\ count is_probe_ok delta = 0)).
Proof.
  destruct (cached_process s) as [h|] eqn:Hslot.
  - exists []. rewrite (start_cached E s h Hslot). cbn [fst snd].
    split; [reflexivity|]. split; [cbn; lia|].
    left. exists h. repeat split; [exact Hslot | discriminate | discriminate].
  - destruct (start_spec E s Hslot)
      as (delta & Hall & Hle & [(Heq & Hok & Hshape) | (Heq & Hn & Hok)]);
      exists (delta ++ start_events E s)%list; rewrite Heq; cbn [fst snd];
      (split; [cbn [after_start trace]; rewrite <- app_assoc; reflexivity|]);
      rewrite !count_app;
      change (count is_probe (start_events E s)) with 0;
      change (count is_probe_ok (start_events E s)) with 0;
      (split; [lia|]).
    + left. exists (start_popen s). split; [reflexivity|].
      split; [reflexivity|]. intros _. split; [lia|].
      destruct Hshape as (c & msg & resp & rest & ->).
      exists c, msg, resp. eexists. reflexivity.
    + right. split; [reflexivity|]. split; lia.
Qed.

(** C6: once the session is acquired and the URL query is answered,
    [location_should_be url] returns normally exactly when the body of the
    answer equals [url]; when they differ it raises an assertion error whose
    message contains both [url] and the body as they are. *)
Theorem location_should_be_compares_body (E : Env) (url : string)
    (s s1 : State) (stub : PlaywrightStub) (ch : Channel) (resp : Response)
    (Henter : before_yield (insecure_stub E) s = (Ok (stub, ch), s1))
    (Hreply : rpc_reply E (trace s1) GetUrl Empty = Some resp) :
  (fst (location_should_be E url s) = Ok tt <-> body resp = url)
  /\ (body resp <> url ->
      exists msg,
        fst (location_should_be E url s) = Raise (AssertionError msg)
        /\ PyStr.contains url msg /\ PyStr.contains (body resp) msg).
Proof.
  unfold location_should_be, with_. rewrite Henter.
  run_monad. rewrite Hreply. run_monad.
  destruct (String.eqb url (body resp)) eqn:Heqb; cbn [negb]; run_monad.
  - apply String.eqb_eq in Heqb. subst url. split.
    + split; auto.
    + intros Hne. congruence.
  - apply String.eqb_neq in Heqb. split.
    + split; [discriminate | congruence].
    + intros _. eexists. split; [reflexivity|]. split.
      * apply contains_here.
      * do 3 apply contains_after. apply (contains_here "").
Qed.

(** C7: once the session is acquired, [page_should_contain text] sends one
    selector request, whose selector is "text=" followed by [text]; when it
    is answered, the call returns normally exactly when the body of the
    answer equals [text], and otherwise raises the assertion error that
    names [text] as missing from the page. *)
Theorem page_should_contain_selector (E : Env) (text : string)
    (s s1 : State) (stub : PlaywrightStub) (ch : Channel)
    (Henter : before_yield (insecure_stub E) s = (Ok (stub, ch), s1)) :
  let req := selectorRequest ("text=" ++ text) in
  let out := page_should_contain E text s in
  requests (trace (snd out)) = (GetTextContent, req) :: requests (trace s)
  /\ In (EvRpc ch GetTextContent req (rpc_reply E (trace s1) GetTextContent req))
        (trace (snd out))
  /\ forall resp,
       rpc_reply E (trace s1) GetTextContent req = Some resp ->
       (fst out = Ok tt <-> body resp = text)
       /\ (body resp <> text ->
           fst out = Raise (AssertionError
                              ("No element with text `" ++ text ++ "` on page"))
           /\ PyStr.contains text
                ("No element with text `" ++ text ++ "` on page")).
Proof.
  destruct (enter_spec E s s1 _ Henter) as (Hreq & -> & _).
  cbv zeta. unfold page_should_contain, with_. rewrite Henter. run_monad.
  destruct (rpc_reply E (trace s1) GetTextContent
              (selectorRequest ("text=" ++ text))) as [resp|] eqn:Hreply;
    run_monad.
  - destruct (String.eqb (body resp) text) eqn:Heqb; cbn [negb]; run_monad;
      cbn [requests]; rewrite Hreq;
      (split; [reflexivity|]); (split; [cbn; tauto|]);
      intros resp' [= <-].
    + apply String.eqb_eq in Heqb. split; [tauto | congruence].
    + apply String.eqb_neq in Heqb. split.
      * split; [discriminate | congruence].
      * intros _. split; [reflexivity | apply contains_here].
  - cbn [requests]. rewrite Hreq. split; [reflexivity|].
    split; [cbn; tauto | discriminate].
Qed.

(** [open_browser] with a supported name, by the outcome of the session:
    acquired, it sends the one request with the trimmed lower-case name;
    not acquired, it sends nothing and ends with the error of the session. *)
Lemma open_browser_supported (E : Env) (browser : string)
    (url : option string) (s : State) :
  let browser_ := PyStr.strip (PyStr.lower browser) in
  let req := openBrowserRequest (or_empty url) browser_ in
  let out := open_browser E browser url s in
  PyStr.mem browser_ _SUPPORTED_BROWSERS = true ->
  match before_yield (insecure_stub E) s with
  | (Ok (_, ch), s1) =>
      requests (trace (snd out)) = (OpenBrowser, req) :: requests (trace s)
      /\ In (EvRpc ch OpenBrowser req (rpc_reply E (trace s1) OpenBrowser req))
            (trace (snd out))
      /\ (fst out = Ok tt \/ fst out = Raise RpcError)
  | (Raise e, s1) =>
      out = (Raise e, s1)
      /\ requests (trace s1) = requests (trace s)
      /\ ((exists m, e = RuntimeError m) \/ (exists m, e = ConnectionError m))
  end.
Proof.
  cbv zeta. intros Hmem. unfold open_browser. rewrite Hmem. cbn [negb].
  unfold with_.
  destruct (before_yield (insecure_stub E) s) as [[[stub ch]|e] s1] eqn:Henter;
    destruct (enter_spec E s s1 _ Henter) as (Hreq & Hshape).
  - destruct Hshape as (-> & _). run_monad.
    match goal with
    | |- context [rpc_reply E ?t ?m ?r] => destruct (rpc_reply E t m r) as [resp|]
    end; run_monad; cbn [requests]; rewrite Hreq; cbn [In]; tauto.
  - auto.
Qed.

(** C2: when the lower-cased, trimmed name is one of chrome, firefox and
    webkit, [open_browser] never raises the validation error, the only
    request it can send is the open-browser request carrying that name, and
    it does send it once the session is acquired.  When the name is not in
    the set, it raises the validation error, whose message lists the set,
    and leaves the state as it was: no event at all, so no process, no
    channel and no call. *)
Theorem open_browser_validates_name (E : Env) (browser : string)
    (url : option string) (s : State) :
  let browser_ := PyStr.strip (PyStr.lower browser) in
  let req := openBrowserRequest (or_empty url) browser_ in
  let out := open_browser E browser url s in
  (In browser_ _SUPPORTED_BROWSERS ->
     (forall msg, fst out <> Raise (ValueError msg))
     /\ (requests (trace (snd out)) = requests (trace s)
         \/ requests (trace (snd out)) = (OpenBrowser, req) :: requests (trace s))
     /\ (forall stub ch s1,
           before_yield (insecure_stub E) s = (Ok (stub, ch), s1) ->
           requests (trace (snd out)) = (OpenBrowser, req) :: requests (trace s)
           /\ In (EvRpc ch OpenBrowser req
                    (rpc_reply E (trace s1) OpenBrowser req))
                 (trace (snd out))))
  /\ (~ In browser_ _SUPPORTED_BROWSERS ->
      exists msg,
        out = (Raise (ValueError msg), s)
        /\ PyStr.contains (PyStr.join ", " _SUPPORTED_BROWSERS) msg
        /\ PyStr.contains "chrome, firefox, webkit" msg).
Proof.
  cbv zeta. split.
  - intros Hin. apply mem_In in Hin.
    pose proof (open_browser_supported E browser url s Hin) as H. cbv zeta in H.
    destruct (before_yield (insecure_stub E) s) as [[[stub ch]|e] s1].
    + destruct H as (Hreq & Hev & Hres). split; [|split].
      * intros msg Hv. destruct Hres as [Hr|Hr]; rewrite Hr in Hv; discriminate.
      * right. exact Hreq.
      * intros stub' ch' s1' [= _ <- <-]. split; assumption.
    + destruct H as (Hout & Hreq & Hexn). rewrite Hout. cbn [fst snd].
      split; [|split].
      * intros msg [= ->]. destruct Hexn as [(m & Hm)|(m & Hm)]; discriminate.
      * left. exact Hreq.
      * intros stub ch s1' [=].
  - intros Hnot. unfold open_browser.
    destruct (PyStr.mem (PyStr.strip (PyStr.lower browser)) _SUPPORTED_BROWSERS)
      eqn:Hmem; [apply mem_In in Hmem; contradiction|].
    cbn [negb]. eexists. split; [reflexivity|].
    split; do 3 apply contains_after; exists "", ""; reflexivity.
Qed.

(** C10: the default of [browser] is "Chrome", whose lower-cased, trimmed
    form "chrome" is in the supported set; and a call with no browser and
    with no url, or with an empty one, sends, once the session is acquired,
    the open-browser request whose [url] field is the empty string. *)
Theorem open_browser_defaults (E : Env) (url : option string)
    (s s1 : State) (stub : PlaywrightStub) (ch : Channel)
    (Hurl : url = None \/ url = Some "")
    (Henter : before_yield (insecure_stub E) s = (Ok (stub, ch), s1)) :
  open_browser_default = "Chrome"
  /\ PyStr.strip (PyStr.lower open_browser_default) = "chrome"
  /\ In "chrome" _SUPPORTED_BROWSERS
  /\ let out := run_call E (Call_open_browser None url) s in
     requests (trace (snd out))
     = (OpenBrowser, openBrowserRequest "" "chrome") :: requests (trace s)
     /\ In (EvRpc ch OpenBrowser (openBrowserRequest "" "chrome")
              (rpc_reply E (trace s1) OpenBrowser
                 (openBrowserRequest "" "chrome")))
           (trace (snd out))
     /\ forall msg, fst out <> Raise (ValueError msg).
Proof.
  split; [reflexivity|]. split; [reflexivity|]. split; [cbn; tauto|].
  cbv zeta. cbn [run_call].
  pose proof (open_browser_supported E open_browser_default url s eq_refl) as H.
  cbv zeta in H. rewrite Henter in H.
  change (PyStr.strip (PyStr.lower open_browser_default)) with "chrome" in H.
  assert (Hu : or_empty url = "") by (destruct Hurl; subst; reflexivity).
  rewrite Hu in H. destruct H as (Hreq & Hev & Hres).
  split; [exact Hreq|]. split; [exact Hev|].
  intros msg Hv. destruct Hres as [Hr|Hr]; rewrite Hr in Hv; discriminate.
Qed.

(** C9: when the start raises the error of line 118, the slot stays empty,
    the instance keeps the port allocated for that start, and the process
    spawned for it is not killed.  The next call that reaches the process
    runs the start again: it allocates a port anew and spawns another
    process with that port. *)
Theorem failed_start_is_not_memoized (E : Env) (s : State) (msg : string)
    (Hfail : fst (_playwright_process E s) = Raise (RuntimeError msg)) :
  let s' := snd (_playwright_process E s) in
  cached_process s' = None
  /\ port s' = Some (PyStr.of_N (start_port E s))
  /\ (exists delta, trace s' = (delta ++ start_events E s ++ trace s)%list)
  /\ count is_spawn (trace s') = S (count is_spawn (trace s))
  /\ count is_kill (trace s') = count is_kill (trace s)
  /\ forall c, needs_process c = true ->
       let s'' := snd (run_call E c s') in
       let p2 := PyStr.of_N (start_port E (call_entry c s')) in
       count is_spawn (trace s'') = S (count is_spawn (trace s'))
       /\ count is_free_port (trace s'') = S (count is_free_port (trace s'))
       /\ In (EvFreePort (start_port E (call_entry c s'))) (trace s'')
       /\ (exists args cwd out,
             In (EvSpawn (start_popen s') args cwd
                   [("PORT", p2); ("PATH", environ_PATH E)] out) (trace s''))
       /\ port s'' = Some p2
       /\ start_popen s' <> start_popen s.
Proof.
  cbv zeta.
  destruct (_playwright_process E s) as [r s'] eqn:Hstart. cbn [fst snd] in *.
  subst r. destruct (start_raise_timeout E s s' _ Hstart) as (Hslot & _ & Hslot').
  pose proof (start_effects E s Hslot) as Hfx. cbv zeta in Hfx.
  rewrite Hstart in Hfx. cbn [fst snd] in Hfx.
  destruct Hfx as (Hs & Hf & Hk & Hport & Htr & _).
  repeat (split; [assumption|]).
  intros c Hneeds.
  pose proof (first_call_starts E c s' Hslot' Hneeds) as H. cbv zeta in H.
  destruct H as (H1 & H2 & H3 & H4 & H5 & _).
  repeat (split; [assumption|]).
  unfold start_popen. rewrite Hs. intros [= Habs]. lia.
Qed.

Lemma next_channel_not_opened (t : list event) :
  chans_in_order t = true ->
  count (is_open_of {| cid := count is_chan_open t |}) t = 0.
Proof.
  intros Hwf. set (n := count is_chan_open t).
  assert (Hb : forall e, In e t -> is_open_of {| cid := n |} e = false).
  { intros e Hin. destruct e as [| | | |c tg| | | | |]; try reflexivity.
    cbn. apply Nat.eqb_neq. intros Hn.
    apply (next_channel_fresh t Hwf _ Hin). cbn. fold n. rewrite Hn.
    destruct c; reflexivity. }
  clearbody n. clear Hwf. induction t as [|x t IH]; [reflexivity|].
  rewrite count_cons, (Hb x (or_introl eq_refl)). cbn.
  apply IH. intros e Hin. apply Hb. right. exact Hin.
Qed.

(** What [insecure_stub] does with its channel, for every keyword on a
    started instance whose process is alive: the channel is opened once; it
    is closed once when the keyword returns, and not at all when the keyword
    raises (a failed call, or an assertion that does not hold). *)
Lemma channel_closed_only_on_return (E : Env) (s : State) (h : Popen)
    (c : call) :
  cached_process s = Some h -> os_poll E (trace s) h = None ->
  chans_in_order (trace s) = true ->
  needs_process c = true -> c <> Call__close ->
  let ch := {| cid := count is_chan_open (trace s) |} in
  let out := run_call E c s in
  count (is_open_of ch) (trace (snd out)) = 1
  /\ (fst out = Ok tt -> count (is_close_of ch) (trace (snd out)) = 1)
  /\ (forall e, fst out = Raise e ->
                count (is_close_of ch) (trace (snd out)) = 0).
Proof.
  intros Hslot Halive Hwf Hneeds Hc. cbv zeta.
  pose proof (next_channel_not_opened _ Hwf) as Hno.
  pose proof (next_channel_not_closed _ Hwf) as Hnc.
  started_call E s h Hslot c; try congruence;
    cbn [trace] in *; try congruence;
    rewrite !count_cons; cbn [is_open_of is_close_of cid];
    rewrite ?Nat.eqb_refl, ?Hno, ?Hnc;
    (split; [reflexivity|]); split; first [discriminate | reflexivity | intros; reflexivity].
Qed.

(** C1, at a failing input: on a started instance whose engine reports the
    URL "https://other.com", [location_should_be "https://example.com"]
    raises the assertion error, and the channel [insecure_stub] opened for
    the call has been opened once and closed never. *)
Theorem channel_left_open_when_keyword_raises :
  let reply := {| log := "url"; body := "https://other.com" |} in
  let E := mock 0 reply in
  let s := started reply in
  let ch := {| cid := count is_chan_open (trace s) |} in
  let out := location_should_be E "https://example.com" s in
  chans_in_order (trace s) = true
  /\ fst out = Raise (AssertionError
                        "URL should be `https://example.com`  but was `https://other.com`")
  /\ count (is_open_of ch) (trace (snd out)) = 1
  /\ count (is_close_of ch) (trace (snd out)) = 0.
Proof.
  vm_compute. repeat split.
Qed.

(** C8, as stated, fails on a new instance: [_close] reaches the process
    through the cached property, so with an empty slot it spawns one. *)
Lemma _close_spawns_on_new_instance :
  let E := mock 0 {| log := ""; body := "" |} in
  cached_process (__init__ E) = None
  /\ count is_spawn (trace (__init__ E)) = 0
  /\ count is_spawn (trace (snd (_close E (__init__ E)))) = 1
  /\ ~ (count is_spawn (trace (snd (_close E (__init__ E))))
        = count is_spawn (trace (__init__ E))).
Proof.
  vm_compute. repeat split. discriminate.
Qed.

(* ------------------------------------------------------------------ *)
(** ** The theorems at work on the mock *)

(** [open_browser_validates_name] on the mock: a padded, mixed-case name is
    sent in canonical form; an unsupported one changes nothing. *)
Lemma open_browser_validates_name_witness :
  In (PyStr.strip (PyStr.lower "  FireFox ")) _SUPPORTED_BROWSERS
  /\ ~ In (PyStr.strip (PyStr.lower "opera")) _SUPPORTED_BROWSERS
  /\ requests (trace (snd (open_browser demo_env "  FireFox " None
                             (started demo_reply))))
     = [(OpenBrowser, openBrowserRequest "" "firefox")]
  /\ exists msg,
       open_browser demo_env "opera" None (__init__ demo_env)
       = (Raise (ValueError msg), __init__ demo_env).
Proof.
  assert (Hin : In (PyStr.strip (PyStr.lower "  FireFox ")) _SUPPORTED_BROWSERS)
    by (vm_compute; tauto).
  assert (Hout : ~ In (PyStr.strip (PyStr.lower "opera")) _SUPPORTED_BROWSERS)
    by (vm_compute; intros [H|[H|[H|[]]]]; discriminate).
  assert (Henter : before_yield (insecure_stub demo_env) (started demo_reply)
                   = (Ok ({| stub_channel := {| cid := 1 |} |}, {| cid := 1 |}),
                      demo_session))
    by (vm_compute; reflexivity).
  split; [exact Hin|]. split; [exact Hout|]. split.
  - destruct (open_browser_validates_name demo_env "  FireFox " None
                (started demo_reply)) as [Hvalid _].
    destruct (Hvalid Hin) as (_ & _ & Hsent).
    destruct (Hsent _ _ _ Henter) as [Hreq _].
    rewrite Hreq. vm_compute. reflexivity.
  - destruct (open_browser_validates_name demo_env "opera" None
                (__init__ demo_env)) as [_ Hinvalid].
    destruct (Hinvalid Hout) as (msg & Heq & _). exists msg. exact Heq.
Defined.

(** [location_should_be_compares_body] on the mock, for the URL the engine
    reports and for another one. *)
Lemma location_should_be_compares_body_witness :
  before_yield (insecure_stub demo_env) (started demo_reply)
  = (Ok ({| stub_channel := {| cid := 1 |} |}, {| cid := 1 |}), demo_session)
  /\ rpc_reply demo_env (trace demo_session) GetUrl Empty = Some demo_reply
  /\ fst (location_should_be demo_env "https://example.com" (started demo_reply))
     = Ok tt
  /\ exists msg,
       fst (location_should_be demo_env "https://other.com" (started demo_reply))
       = Raise (AssertionError msg)
       /\ PyStr.contains "https://other.com" msg
       /\ PyStr.contains "https://example.com" msg.
Proof.
  assert (Henter : before_yield (insecure_stub demo_env) (started demo_reply)
                   = (Ok ({| stub_channel := {| cid := 1 |} |}, {| cid := 1 |}),
                      demo_session))
    by (vm_compute; reflexivity).
  assert (Hreply : rpc_reply demo_env (trace demo_session) GetUrl Empty
                   = Some demo_reply)
    by (vm_compute; reflexivity).
  split; [exact Henter|]. split; [exact Hreply|]. split.
  - apply (location_should_be_compares_body demo_env "https://example.com"
             (started demo_reply) demo_session _ _ demo_reply Henter Hreply).
    reflexivity.
  - apply (location_should_be_compares_body demo_env "https://other.com"
             (started demo_reply) demo_session _ _ demo_reply Henter Hreply).
    discriminate.
Defined.

(** [page_should_contain_selector] on the mock, whose answer is not the
    text looked for. *)
Lemma page_should_contain_selector_witness :
  before_yield (insecure_stub demo_env) (started demo_reply)
  = (Ok ({| stub_channel := {| cid := 1 |} |}, {| cid := 1 |}), demo_session)
  /\ requests (trace (snd (page_should_contain demo_env "Login"
                             (started demo_reply))))
     = [(GetTextContent, selectorRequest "text=Login")]
  /\ fst (page_should_contain demo_env "Login" (started demo_reply))
     = Raise (AssertionError "No element with text `Login` on page").
Proof.
  assert (Henter : before_yield (insecure_stub demo_env) (started demo_reply)
                   = (Ok ({| stub_channel := {| cid := 1 |} |}, {| cid := 1 |}),
                      demo_session))
    by (vm_compute; reflexivity).
  split; [exact Henter|].
  destruct (page_should_contain_selector demo_env "Login" (started demo_reply)
              demo_session _ _ Henter) as (Hreq & _ & Hres).
  split; [rewrite Hreq; vm_compute; reflexivity|].
  assert (Hreply : rpc_reply demo_env (trace demo_session) GetTextContent
                     (selectorRequest ("text=" ++ "Login")) = Some demo_reply)
    by (vm_compute; reflexivity).
  destruct (Hres demo_reply Hreply) as [_ Hfail].
  apply Hfail. discriminate.
Defined.

(** [failed_start_is_not_memoized] on a mock that answers no probe of the
    first start: the second start gets port 50052. *)
Lemma failed_start_is_not_memoized_witness :
  fst (_playwright_process slow_env (__init__ slow_env))
  = Raise (RuntimeError "Could not connect to the playwright process at port $50051")
  /\ cached_process (snd (_playwright_process slow_env (__init__ slow_env))) = None
  /\ port (snd (_playwright_process slow_env (__init__ slow_env))) = Some "50051"
  /\ port (snd (run_call slow_env Call_close_browser
                  (snd (_playwright_process slow_env (__init__ slow_env)))))
     = Some "50052".
Proof.
  assert (Hfail : fst (_playwright_process slow_env (__init__ slow_env))
                  = Raise (RuntimeError
                             "Could not connect to the playwright process at port $50051"))
    by (vm_compute; reflexivity).
  split; [exact Hfail|].
  destruct (failed_start_is_not_memoized slow_env (__init__ slow_env) _ Hfail)
    as (Hslot & Hport & _ & _ & _ & Hnext).
  split; [exact Hslot|]. split; [exact Hport|].
  destruct (Hnext Call_close_browser eq_refl) as (_ & _ & _ & _ & Hport2 & _).
  rewrite Hport2. vm_compute. reflexivity.
Defined.

(** [open_browser_defaults] on the mock: no browser, no url. *)
Lemma open_browser_defaults_witness :
  (@None string = None \/ @None string = Some "")
  /\ before_yield (insecure_stub demo_env) (started demo_reply)
     = (Ok ({| stub_channel := {| cid := 1 |} |}, {| cid := 1 |}), demo_session)
  /\ requests (trace (snd (run_call demo_env (Call_open_browser None None)
                             (started demo_reply))))
     = [(OpenBrowser, openBrowserRequest "" "chrome")].
Proof.
  assert (Henter : before_yield (insecure_stub demo_env) (started demo_reply)
                   = (Ok ({| stub_channel := {| cid := 1 |} |}, {| cid := 1 |}),
                      demo_session))
    by (vm_compute; reflexivity).
  split; [left; reflexivity|]. split; [exact Henter|].
  destruct (open_browser_defaults demo_env None (started demo_reply)
              demo_session _ _ (or_introl eq_refl) Henter)
    as (_ & _ & _ & Hreq & _).
  rewrite Hreq. vm_compute. reflexivity.
Defined.

(* ------------------------------------------------------------------ *)
(** ** Invariants of the start *)

(** The loop of line 107 keeps every property of the trace that one turn
    keeps, whether its probe is answered or not. *)
Lemma health_loop_invariant (E : Env) (popen : Popen)
    (R : list event -> Prop) (p : option string) :
  (forall t, R t ->
     let c := {| cid := count is_chan_open t |} in
     let h := EvChanOpen c ("localhost:" ++ fmt_port p) :: t in
     match rpc_reply E h Health Empty with
     | Some resp =>
         R (EvChanClose c
            :: EvLog INFO ("Connected to the playwright process at port $"
                           ++ fmt_port p ++ ": $" ++ show_response E resp)
            :: EvRpc c Health Empty (Some resp) :: h)
     | None =>
         R (EvChanClose c :: EvSleep 100 :: EvRpc c Health Empty None :: h)
     end) ->
  forall n s, port s = p -> R (trace s) ->
              R (trace (snd (health_loop E popen n s))).
Proof.
  intros Hturn. induction n as [|n IH]; intros s Hp HR; [exact HR|].
  cbn [health_loop]. unfold bind at 1. rewrite health_probe_eq.
  specialize (Hturn (trace s) HR). cbv zeta in Hturn. rewrite Hp.
  destruct (rpc_reply E _ Health Empty) as [resp|].
  - exact Hturn.
  - apply IH; [exact Hp | exact Hturn].
Qed.

(** A start from an empty slot ends with the trace its health loop leaves. *)
Lemma start_trace (E : Env) (s : State) :
  cached_process s = None ->
  trace (snd (_playwright_process E s))
  = trace (snd (health_loop E (start_popen s) 50 (after_start E s None []))).
Proof.
  destruct s as [dir port_ slot t]. cbn [cached_process]. intros ->.
  unfold _playwright_process, cached_property. cbn [cached_process].
  unfold _playwright_process_body. run_monad.
  change (health_loop E _ 50 _)
    with (health_loop E
            (start_popen {| ROBOT_OUTPUT_DIR := dir; port := port_;
                            cached_process := None; trace := t |}) 50
            (after_start E {| ROBOT_OUTPUT_DIR := dir; port := port_;
                              cached_process := None; trace := t |} None [])).
  destruct (health_loop E _ 50 _) as [[[ready|]|e] s1]; reflexivity.
Qed.

(** A start from an empty slot keeps every property of the trace that
    [start_events] and one turn of the loop keep. *)
Lemma start_invariant (E : Env) (s : State) (R : list event -> Prop) :
  cached_process s = None ->
  R (start_events E s ++ trace s)%list ->
  (forall t, R t ->
     let p := Some (PyStr.of_N (start_port E s)) in
     let c := {| cid := count is_chan_open t |} in
     let h := EvChanOpen c ("localhost:" ++ fmt_port p) :: t in
     match rpc_reply E h Health Empty with
     | Some resp =>
         R (EvChanClose c
            :: EvLog INFO ("Connected to the playwright process at port $"
                           ++ fmt_port p ++ ": $" ++ show_response E resp)
            :: EvRpc c Health Empty (Some resp) :: h)
     | None =>
         R (EvChanClose c :: EvSleep 100 :: EvRpc c Health Empty None :: h)
     end) ->
  R (trace (snd (_playwright_process E s))).
Proof.
  intros Hslot Hstart Hturn. rewrite (start_trace E s Hslot).
  apply (health_loop_invariant E _ R (Some (PyStr.of_N (start_port E s))) Hturn).
  - reflexivity.
  - exact Hstart.
Qed.

(** The same rule on what a start adds to the trace: a property of the new
    events that holds of [start_events] and is kept by an answered and by an
    unanswered turn holds of all a start from an empty slot adds. *)
Lemma start_delta (E : Env) (s : State) (P : list event -> Prop) :
  cached_process s = None ->
  P (start_events E s) ->
  (forall d c tgt resp msg,
     P d -> c = {| cid := count is_chan_open (d ++ trace s) |} ->
     tgt = "localhost:" ++ PyStr.of_N (start_port E s) ->
     rpc_reply E (EvChanOpen c tgt :: d ++ trace s) Health Empty = Some resp ->
     P (EvChanClose c :: EvLog INFO msg :: EvRpc c Health Empty (Some resp)
        :: EvChanOpen c tgt :: d)) ->
  (forall d c tgt,
     P d -> c = {| cid := count is_chan_open (d ++ trace s) |} ->
     tgt = "localhost:" ++ PyStr.of_N (start_port E s) ->
     rpc_reply E (EvChanOpen c tgt :: d ++ trace s) Health Empty = None ->
     P (EvChanClose c :: EvSleep 100 :: EvRpc c Health Empty None
        :: EvChanOpen c tgt :: d)) ->
  exists delta,
    trace (snd (_playwright_process E s)) = (delta ++ trace s)%list /\ P delta.
Proof.
  intros Hslot Hstart Hok Hfail.
  apply (start_invariant E s
           (fun t => exists d, t = (d ++ trace s)%list /\ P d) Hslot).
  - exists (start_events E s). split; [reflexivity | exact Hstart].
  - intros t (d & -> & Hd). cbv zeta. cbn [fmt_port].
    destruct (rpc_reply E _ Health Empty) as [resp|] eqn:Hreply.
    + eexists (_ :: _ :: _ :: _ :: d). split; [reflexivity|].
      apply Hok; auto.
    + eexists (_ :: _ :: _ :: _ :: d). split; [reflexivity|].
      apply Hfail; auto.
Qed.

Lemma count_probe_split (t : list event) :
  count is_probe t = count is_probe_ok t + count is_probe_failed t.
Proof.
  induction t as [|e t IH]; [reflexivity|]. rewrite !count_cons, IH.
  destruct e as [| | | | | |c m r [resp|]| | |]; cbn; try lia;
    destruct m; cbn; lia.
Qed.

(** X4: the start never leaks a channel.  Whatever the outcome, every
    channel it opens for a probe is closed as often as it is opened, one
    channel is opened per probe, and as many are closed. *)
Theorem start_closes_every_probe_channel (E : Env) (s : State) :
  exists delta,
    trace (snd (_playwright_process E s)) = (delta ++ trace s)%list
    /\ (forall c, count (is_close_of c) delta = count (is_open_of c) delta)
    /\ count is_chan_open delta = count is_probe delta
    /\ count is_chan_close delta = count is_probe delta.
Proof.
  destruct (cached_process s) as [h|] eqn:Hslot.
  - exists []. rewrite (start_cached E s h Hslot). repeat split.
  - apply (start_delta E s
             (fun d => (forall c, count (is_close_of c) d = count (is_open_of c) d)
                       /\ count is_chan_open d = count is_probe d
                       /\ count is_chan_close d = count is_probe d) Hslot).
    + repeat split.
    + intros d c tgt resp msg (Hb & Ho & Hc) _ _ _.
      split; [|split]; [intros c'|..]; rewrite !count_cons;
        cbn [is_close_of is_open_of is_chan_open is_chan_close is_probe];
        rewrite ?Hb; lia.
    + intros d c tgt (Hb & Ho & Hc) _ _ _.
      split; [|split]; [intros c'|..]; rewrite !count_cons;
        cbn [is_close_of is_open_of is_chan_open is_chan_close is_probe];
        rewrite ?Hb; lia.
Qed.

(** X5: the start sleeps 100 milliseconds after each unanswered probe and
    at no other time: a start that raises the error of line 118 has slept
    5000 milliseconds, a start that returns the handle at most 4900. *)
Theorem start_sleeps_between_probes (E : Env) (s : State) :
  exists delta,
    trace (snd (_playwright_process E s)) = (delta ++ trace s)%list
    /\ slept delta = 100 * count is_probe_failed delta
    /\ (forall e, fst (_playwright_process E s) = Raise e -> slept delta = 5000)
    /\ (forall h, fst (_playwright_process E s) = Ok h -> slept delta <= 4900).
Proof.
  destruct (cached_process s) as [h|] eqn:Hslot.
  - exists []. rewrite (start_cached E s h Hslot). cbn [fst snd].
    repeat split; [discriminate | cbn; lia].
  - destruct (start_delta E s
                (fun d => slept d = 100 * count is_probe_failed d) Hslot)
      as (delta & Htr & Hsl).
    + reflexivity.
    + intros d c tgt resp msg Hd _ _ _. rewrite !count_cons.
      cbn [slept is_probe_failed]. lia.
    + intros d c tgt Hd _ _ _. rewrite !count_cons.
      cbn [slept is_probe_failed]. lia.
    + exists delta. split; [exact Htr|]. split; [exact Hsl|].
      destruct (start_spec E s Hslot)
        as (d0 & _ & Hle & [(Heq & Hok & _) | (Heq & Hn & Hok)]);
        rewrite Heq in *; cbn [fst snd after_start trace] in *;
        rewrite app_assoc in Htr; apply app_inv_tail in Htr; subst delta;
        rewrite Hsl, count_app;
        change (count is_probe_failed (start_events E s)) with 0;
        pose proof (count_probe_split d0) as Hsplit;
        (split; [intros e He | intros h He]); try discriminate; lia.
Qed.

(** X12: a start from an empty slot logs, opens playwright-log.txt in the
    output directory for writing, asks for a free port, and spawns node on
    wrapper/index.js beside the module, in the wrapper directory, with the
    environment made of PORT (that port) and PATH and with the log file as
    standard output.  Everything it does after that is probing, and every
    probe dials that same port on localhost. *)
Theorem start_spawns_node_on_allocated_port (E : Env) (s : State)
    (Hslot : cached_process s = None) :
  let wrapper := PyStr.path_join (module_dir E) "wrapper" in
  let script := PyStr.path_join wrapper "index.js" in
  let logfile := PyStr.path_join (ROBOT_OUTPUT_DIR s) "playwright-log.txt" in
  let log1 := EvLog INFO ("Starting Playwright process " ++ script) in
  let p := find_free_port E (EvOpenFile logfile "w" :: log1 :: trace s) in
  exists delta,
    trace (snd (_playwright_process E s))
    = (delta
       ++ [ EvSpawn {| pid := count is_spawn (trace s) |} ["node"; script]
              wrapper [("PORT", PyStr.of_N p); ("PATH", environ_PATH E)] logfile;
            EvFreePort p; EvOpenFile logfile "w"; log1 ]
       ++ trace s)%list
    /\ port (snd (_playwright_process E s)) = Some (PyStr.of_N p)
    /\ forallb probe_event delta = true
    /\ forall c tgt, In (EvChanOpen c tgt) delta ->
                     tgt = "localhost:" ++ PyStr.of_N p.
Proof.
  cbv zeta.
  destruct (start_delta E s
              (fun d => exists d',
                 d = (d' ++ start_events E s)%list
                 /\ forallb probe_event d' = true
                 /\ forall c tgt, In (EvChanOpen c tgt) d' ->
                      tgt = "localhost:" ++ PyStr.of_N (start_port E s)) Hslot)
    as (delta & Htr & d' & -> & Hall & Htgt).
  - exists []. repeat split. intros c tgt [].
  - intros d c tgt resp msg (d' & -> & Hall & Htgt) _ -> _.
    eexists (_ :: _ :: _ :: _ :: d'). split; [reflexivity|].
    split; [cbn [forallb probe_event]; exact Hall|].
    intros c' tgt' [H|[H|[H|[H|H]]]]; try discriminate; [|eauto].
    injection H as _ <-. reflexivity.
  - intros d c tgt (d' & -> & Hall & Htgt) _ -> _.
    eexists (_ :: _ :: _ :: _ :: d'). split; [reflexivity|].
    split; [cbn [forallb probe_event]; exact Hall|].
    intros c' tgt' [H|[H|[H|[H|H]]]]; try discriminate; [|eauto].
    injection H as _ <-. reflexivity.
  - exists d'. split; [rewrite Htr, <- app_assoc; reflexivity|].
    split; [|split; assumption].
    pose proof (start_effects E s Hslot) as Hfx. cbv zeta in Hfx.
    destruct Hfx as (_ & _ & _ & Hport & _). exact Hport.
Qed.

(* ------------------------------------------------------------------ *)
(** ** Invariants of a run *)

(** A call that reaches the process, from any state: the start from
    [call_entry], then the rest of the call on the started instance. *)
Lemma run_call_entry (E : Env) (c : call) (s : State) :
  needs_process c = true ->
  run_call E c s
  = match _playwright_process E (call_entry c s) with
    | (Ok h, s0) =>
        match c with
        | Call__close =>
            (Ok tt, with_trace s0 (EvLog DEBUG "Playwright process killed"
                                   :: EvKill h :: trace s0))
        | _ => run_call E c s0
        end
    | (Raise e, s0) => (Raise e, s0)
    end.
Proof.
  intros Hneeds.
  destruct c as [b u| | | | | | | | |];
    try (rewrite (run_call_lazy E _ s Hneeds ltac:(discriminate));
         reflexivity).
  cbn [run_call call_entry]. apply _close_eq.
Qed.

(** A call that does not reach the process changes nothing. *)
Lemma run_call_rejected (E : Env) (c : call) (s : State) :
  needs_process c = false -> snd (run_call E c s) = s.
Proof.
  intros Hneeds. destruct c as [b u| | | | | | | | |]; try discriminate.
  cbn [run_call needs_process] in *. unfold open_browser.
  rewrite Hneeds. reflexivity.
Qed.

(** A property of the state that the start, the keywords on a started
    instance and the two steps of [_close] keep is kept by every call. *)
Lemma run_call_invariant (E : Env) (I : State -> Prop) :
  (forall s, I s -> I (snd (_playwright_process E s))) ->
  (forall s h c, cached_process s = Some h -> needs_process c = true ->
                 c <> Call__close -> I s -> I (snd (run_call E c s))) ->
  (forall s, I s ->
     I (with_trace s (EvLog DEBUG "Closing Playwright process" :: trace s))) ->
  (forall s h, cached_process s = Some h -> I s ->
     I (with_trace s (EvLog DEBUG "Playwright process killed"
                      :: EvKill h :: trace s))) ->
  forall c s, I s -> I (snd (run_call E c s)).
Proof.
  intros Hstart Hkw Hlog Hkill c s HI.
  destruct (needs_process c) eqn:Hneeds;
    [|rewrite (run_call_rejected E c s Hneeds); exact HI].
  rewrite (run_call_entry E c s Hneeds).
  assert (HI0 : I (call_entry c s)) by (destruct c; cbn [call_entry]; auto).
  specialize (Hstart _ HI0).
  destruct (_playwright_process E (call_entry c s)) as [[h|e] s0] eqn:Hs;
    cbn [snd] in Hstart; [|exact Hstart].
  pose proof (start_ok_cached E _ s0 h Hs) as Hslot.
  destruct c as [b u| | | | | | | | |];
    try (apply (Hkw s0 h); [exact Hslot | exact Hneeds | discriminate | exact Hstart]).
  cbn [snd]. apply Hkill; assumption.
Qed.

Lemma run_calls_invariant (E : Env) (I : State -> Prop) :
  (forall c s, I s -> I (snd (run_call E c s))) ->
  forall cs s, I s -> I (run_calls E cs s).
Proof.
  intros Hstep. induction cs as [|c cs IH]; intros s HI; [exact HI|].
  cbn [run_calls]. apply IH, Hstep, HI.
Qed.

(** X6: at every point of a run on a new instance, the port of the instance
    is the port the process in the slot was spawned with, so a session dials
    the port that process was told to listen on. *)
Theorem session_dials_port_of_cached_process (E : Env) (cs : list call)
    (h : Popen) :
  let s := run_calls E cs (__init__ E) in
  cached_process s = Some h ->
  exists p args cwd out,
    port s = Some p
    /\ In (EvSpawn h args cwd [("PORT", p); ("PATH", environ_PATH E)] out)
          (trace s)
    /\ (os_poll E (trace s) h = None ->
        let c := {| cid := count is_chan_open (trace s) |} in
        before_yield (insecure_stub E) s
        = (Ok ({| stub_channel := c |}, c),
           with_trace s (EvChanOpen c ("localhost:" ++ p)
                         :: EvPoll h None :: trace s))).
Proof.
  cbv zeta. intros Hslot.
  set (I := fun s : State =>
         forall h, cached_process s = Some h ->
         exists p args cwd out,
           port s = Some p
           /\ In (EvSpawn h args cwd [("PORT", p); ("PATH", environ_PATH E)] out)
                 (trace s)).
  assert (HI : I (run_calls E cs (__init__ E))).
  { apply run_calls_invariant; [|intros h' [=]].
    apply run_call_invariant.
    - intros s HI h' Hs'. destruct (cached_process s) as [h0|] eqn:Hs.
      + rewrite (start_cached E s h0 Hs) in *. apply HI. exact Hs'.
      + pose proof (start_effects E s Hs) as Hfx. cbv zeta in Hfx.
        destruct Hfx as (_ & _ & _ & Hport & (delta & Htr) & Hres).
        destruct Hres as [(_ & Hc) | (_ & Hc)]; [|congruence].
        rewrite Hc in Hs'. injection Hs' as <-.
        do 4 eexists. split; [exact Hport|].
        rewrite Htr. apply in_or_app. right. left. reflexivity.
    - intros s h0 c Hs _ _ HI h' Hs'.
      pose proof (started_stable E s h0 c Hs) as Hst. cbv zeta in Hst.
      destruct Hst as (Hc & Hp & _).
      destruct (started_extends E s h0 c Hs) as (d & Hd).
      rewrite Hc in Hs'. injection Hs' as <-.
      destruct (HI h0 Hs) as (p & args & cwd & out & Hport & Hin).
      exists p, args, cwd, out. split; [congruence|].
      rewrite Hd. apply in_or_app. right. exact Hin.
    - intros s HI h' Hs'. destruct (HI h' Hs') as (p & args & cwd & out & Hp & Hin).
      exists p, args, cwd, out. split; [exact Hp | right; exact Hin].
    - intros s h0 _ HI h' Hs'.
      destruct (HI h' Hs') as (p & args & cwd & out & Hp & Hin).
      exists p, args, cwd, out. split; [exact Hp | right; right; exact Hin]. }
  destruct (HI h Hslot) as (p & args & cwd & out & Hport & Hin).
  exists p, args, cwd, out. split; [exact Hport|]. split; [exact Hin|].
  intros Halive. cbv zeta.
  rewrite (enter_started E _ h Hslot), Halive, Hport. reflexivity.
Qed.

(* ------------------------------------------------------------------ *)
(** ** The other keywords *)

(** X1: once the session is acquired, [textfield_value_should_be] sends one
    request, GetInputValue for the selector.  An unanswered call raises the
    call's error.  An answered one is logged, and the keyword returns exactly
    when the body equals the expected text; otherwise it raises an assertion
    error whose message contains the selector, the expected text and the
    body. *)
Theorem textfield_value_should_be_compares_body (E : Env)
    (selector text : string) (s s1 : State) (stub : PlaywrightStub)
    (ch : Channel)
    (Henter : before_yield (insecure_stub E) s = (Ok (stub, ch), s1)) :
  let req := selectorRequest selector in
  let out := textfield_value_should_be E selector text s in
  requests (trace (snd out)) = (GetInputValue, req) :: requests (trace s)
  /\ (rpc_reply E (trace s1) GetInputValue req = None ->
      out = (Raise RpcError,
             with_trace s1 (EvRpc ch GetInputValue req None :: trace s1)))
  /\ forall resp,
       rpc_reply E (trace s1) GetInputValue req = Some resp ->
       In (EvLog INFO (log resp)) (trace (snd out))
       /\ (fst out = Ok tt <-> body resp = text)
       /\ (body resp <> text ->
           exists msg,
             fst out = Raise (AssertionError msg)
             /\ PyStr.contains selector msg /\ PyStr.contains text msg
             /\ PyStr.contains (body resp) msg).
Proof.
  destruct (enter_spec E s s1 _ Henter) as (Hreq & -> & _).
  cbv zeta. unfold textfield_value_should_be, with_. rewrite Henter. run_monad.
  destruct (rpc_reply E (trace s1) GetInputValue (selectorRequest selector))
    as [resp|] eqn:Hreply; run_monad.
  - destruct (String.eqb (body resp) text) eqn:Heqb; cbn [negb]; run_monad;
      cbn [requests]; rewrite Hreq;
      (split; [reflexivity|]); (split; [discriminate|]);
      intros resp' [= <-]; (split; [cbn; tauto|]).
    + apply String.eqb_eq in Heqb. split; [tauto | congruence].
    + apply String.eqb_neq in Heqb. split; [split; [discriminate | congruence]|].
      intros _. eexists. split; [reflexivity|]. split; [|split].
      * apply contains_here.
      * do 2 apply contains_after. apply contains_here.
      * do 4 apply contains_after. apply contains_here.
  - cbn [requests]. rewrite Hreq. split; [reflexivity|].
    split; [reflexivity | discriminate].
Qed.

(** X2: once the session is acquired, [title_should_be] sends one request,
    GetTitle with the empty message.  An unanswered call raises the call's
    error.  An answered one is logged, and the keyword returns exactly when
    the body equals the expected title; otherwise it raises an assertion
    error whose message contains the expected title and the body. *)
Theorem title_should_be_compares_body (E : Env) (title : string)
    (s s1 : State) (stub : PlaywrightStub) (ch : Channel)
    (Henter : before_yield (insecure_stub E) s = (Ok (stub, ch), s1)) :
  let out := title_should_be E title s in
  requests (trace (snd out)) = (GetTitle, Empty) :: requests (trace s)
  /\ (rpc_reply E (trace s1) GetTitle Empty = None ->
      out = (Raise RpcError,
             with_trace s1 (EvRpc ch GetTitle Empty None :: trace s1)))
  /\ forall resp,
       rpc_reply E (trace s1) GetTitle Empty = Some resp ->
       In (EvLog INFO (log resp)) (trace (snd out))
       /\ (fst out = Ok tt <-> body resp = title)
       /\ (body resp <> title ->
           exists msg,
             fst out = Raise (AssertionError msg)
             /\ PyStr.contains title msg /\ PyStr.contains (body resp) msg).
Proof.
  destruct (enter_spec E s s1 _ Henter) as (Hreq & -> & _).
  cbv zeta. unfold title_should_be, with_. rewrite Henter. run_monad.
  destruct (rpc_reply E (trace s1) GetTitle Empty) as [resp|] eqn:Hreply;
    run_monad.
  - destruct (String.eqb (body resp) title) eqn:Heqb; cbn [negb]; run_monad;
      cbn [requests]; rewrite Hreq;
      (split; [reflexivity|]); (split; [discriminate|]);
      intros resp' [= <-]; (split; [cbn; tauto|]).
    + apply String.eqb_eq in Heqb. split; [tauto | congruence].
    + apply String.eqb_neq in Heqb. split; [split; [discriminate | congruence]|].
      intros _. eexists. split; [reflexivity|]. split.
      * apply contains_here.
      * do 3 apply contains_after. apply (contains_here "").
  - cbn [requests]. rewrite Hreq. split; [reflexivity|].
    split; [reflexivity | discriminate].
Qed.

(** X3: the four keywords that act on the page.  Once the session is
    acquired, [close_browser], [go_to], [input_text] and [click_button] send
    one request each: CloseBrowser with the empty message, GoTo with the url,
    InputText with the text as input and the selector, ClickButton with the
    selector.  An answered call is logged at INFO, the channel is closed and
    the keyword returns; an unanswered one raises the call's error, logs
    nothing and leaves the channel open. *)
Theorem action_keywords_send_one_request (E : Env) (url selector text : string)
    (c : call) (m : method) (req : message)
    (s s1 : State) (stub : PlaywrightStub) (ch : Channel)
    (Hc : In (c, m, req)
             [ (Call_close_browser, CloseBrowser, Empty);
               (Call_go_to url, GoTo, goToRequest url);
               (Call_input_text selector text, InputText,
                inputTextRequest text selector);
               (Call_click_button selector, ClickButton,
                selectorRequest selector) ])
    (Henter : before_yield (insecure_stub E) s = (Ok (stub, ch), s1)) :
  requests (trace (snd (run_call E c s))) = (m, req) :: requests (trace s)
  /\ (forall resp,
        rpc_reply E (trace s1) m req = Some resp ->
        run_call E c s
        = (Ok tt, with_trace s1 (EvChanClose ch :: EvLog INFO (log resp)
                                 :: EvRpc ch m req (Some resp) :: trace s1)))
  /\ (rpc_reply E (trace s1) m req = None ->
      run_call E c s
      = (Raise RpcError, with_trace s1 (EvRpc ch m req None :: trace s1))).
Proof.
  destruct (enter_spec E s s1 _ Henter) as (Hreq & -> & _).
  destruct Hc as [H|[H|[H|[H|[]]]]]; injection H as <- <- <-;
    cbn [run_call];
    unfold close_browser, go_to, input_text, click_button, with_;
    rewrite Henter; run_monad;
    match goal with
    | |- context [rpc_reply E ?t ?m ?r] =>
        destruct (rpc_reply E t m r) as [resp|] eqn:Hreply
    end; run_monad; cbn [requests]; rewrite Hreq;
    (split; [reflexivity|]); split;
    first [discriminate | intros resp' [= <-]; reflexivity | reflexivity
          | intros; reflexivity].
Qed.

(* ------------------------------------------------------------------ *)
(** ** What a call can raise *)

Lemma started_raises (E : Env) (s : State) (h : Popen) (c : call) (e : exn) :
  cached_process s = Some h -> needs_process c = true ->
  fst (run_call E c s) = Raise e ->
  c <> Call__close
  /\ match e with
     | ConnectionError msg => msg = "Playwright process has been terminated"
     | RpcError => True
     | AssertionError _ => is_assertion c = true
     | _ => False
     end.
Proof.
  intros Hslot Hneeds. revert e.
  started_call E s h Hslot c; intros e [= <-]; split;
    first [discriminate | reflexivity | exact I].
Qed.

(** X7: the errors of a call.  A validation error comes only from
    [open_browser] with an unsupported name; the start error only from a
    call that found the slot empty, with the message of that start; the
    connection error and the error of a failed unary call only from a
    keyword, never from [_close]; an assertion error only from one of the
    four keywords that compare the body.  [_close] on a started instance
    raises nothing. *)
Theorem call_raises_only_its_errors (E : Env) (c : call) (s : State) (e : exn)
    (Hraise : fst (run_call E c s) = Raise e) :
  match e with
  | ValueError _ => needs_process c = false
  | RuntimeError msg =>
      needs_process c = true /\ cached_process s = None
      /\ msg = timeout_message E (call_entry c s)
  | ConnectionError msg =>
      needs_process c = true /\ c <> Call__close
      /\ msg = "Playwright process has been terminated"
  | RpcError => needs_process c = true /\ c <> Call__close
  | AssertionError _ => needs_process c = true /\ is_assertion c = true
  end.
Proof.
  destruct (needs_process c) eqn:Hneeds.
  - rewrite (run_call_entry E c s Hneeds) in Hraise.
    destruct (_playwright_process E (call_entry c s)) as [[h|e0] s0] eqn:Hs.
    + pose proof (start_ok_cached E _ s0 h Hs) as Hslot.
      assert (Hkw : c <> Call__close ->
                    fst (run_call E c s0) = Raise e)
        by (intros Hc; destruct c; first [congruence | exact Hraise]).
      destruct c as [b u| | | | | | | | |]; try discriminate Hraise;
        (destruct (started_raises E s0 h _ e Hslot Hneeds
                     (Hkw ltac:(discriminate))) as (Hc & He));
        destruct e; try contradiction; auto.
    + cbn [fst] in Hraise. injection Hraise as <-.
      destruct (start_raise_timeout E _ s0 e0 Hs) as (Hslot & -> & _).
      split; [reflexivity|]. split; [|reflexivity].
      destruct c; exact Hslot.
  - destruct c as [b u| | | | | | | | |]; try discriminate.
    cbn [run_call needs_process] in *. unfold open_browser in Hraise.
    rewrite Hneeds in Hraise. cbn [negb raise fst] in Hraise.
    injection Hraise as <-. reflexivity.
Qed.

(* ------------------------------------------------------------------ *)
(** ** Runs *)

(** With an engine that answers no probe, a start from an empty slot
    raises. *)
Lemma start_unanswered (E : Env) (s : State) :
  (forall t, rpc_reply E t Health Empty = None) ->
  cached_process s = None ->
  fst (_playwright_process E s) = Raise (RuntimeError (timeout_message E s)).
Proof.
  intros Hdead Hslot.
  destruct (start_delta E s (fun d => count is_probe_ok d = 0) Hslot)
    as (delta & Htr & Hok0).
  - reflexivity.
  - intros d c tgt resp msg _ _ _ Hreply. rewrite Hdead in Hreply. discriminate.
  - intros d c tgt Hd _ _ _. rewrite !count_cons. cbn [is_probe_ok]. exact Hd.
  - destruct (start_spec E s Hslot)
      as (d0 & _ & _ & [(Heq & Hok & _) | (Heq & _)]);
      rewrite Heq in *; [|reflexivity].
    cbn [snd after_start trace] in Htr.
    rewrite app_assoc in Htr. apply app_inv_tail in Htr. subst delta.
    rewrite count_app in Hok0. lia.
Qed.

(** X9: with an engine that never answers the health probe, every call
    that reaches the process raises the start error, and a run of such calls
    leaves the slot empty, has allocated one port and spawned one process per
    call, has killed none of them, and has sent no request of a keyword. *)
Theorem unanswered_engine_spawns_per_call (E : Env) (cs : list call)
    (Hdead : forall t, rpc_reply E t Health Empty = None)
    (Hneed : forallb needs_process cs = true) :
  let s := run_calls E cs (__init__ E) in
  cached_process s = None
  /\ count is_spawn (trace s) = List.length cs
  /\ count is_free_port (trace s) = List.length cs
  /\ count is_kill (trace s) = 0
  /\ requests (trace s) = []
  /\ forall c, needs_process c = true ->
       fst (run_call E c s)
       = Raise (RuntimeError (timeout_message E (call_entry c s))).
Proof.
  cbv zeta.
  assert (Hstep : forall c s,
            cached_process s = None -> needs_process c = true ->
            fst (run_call E c s)
            = Raise (RuntimeError (timeout_message E (call_entry c s)))
            /\ cached_process (snd (run_call E c s)) = None
            /\ count is_spawn (trace (snd (run_call E c s)))
               = S (count is_spawn (trace s))
            /\ count is_free_port (trace (snd (run_call E c s)))
               = S (count is_free_port (trace s))
            /\ count is_kill (trace (snd (run_call E c s)))
               = count is_kill (trace s)
            /\ requests (trace (snd (run_call E c s))) = requests (trace s)).
  { intros c s Hslot Hneeds.
    assert (Hentry : cached_process (call_entry c s) = None)
      by (destruct c; exact Hslot).
    pose proof (start_unanswered E _ Hdead Hentry) as Hfail.
    pose proof (start_effects E _ Hentry) as Hfx. cbv zeta in Hfx.
    pose proof (start_requests E (call_entry c s)) as Hrq.
    rewrite (run_call_entry E c s Hneeds).
    destruct (_playwright_process E (call_entry c s)) as [[h|e] s0];
      cbn [fst snd] in *; [discriminate|].
    destruct Hfx as (Hs & Hf & Hk & _ & _ & [([=] & _) | (_ & Hc)]).
    injection Hfail as ->.
    split; [reflexivity|]. split; [exact Hc|].
    destruct c; cbn [call_entry trace with_trace] in *;
      rewrite ?count_cons in *; cbn [is_spawn is_free_port is_kill requests] in *;
      repeat split; solve [assumption | lia]. }
  assert (Hrun : forall cs s,
            forallb needs_process cs = true -> cached_process s = None ->
            cached_process (run_calls E cs s) = None
            /\ count is_spawn (trace (run_calls E cs s))
               = List.length cs + count is_spawn (trace s)
            /\ count is_free_port (trace (run_calls E cs s))
               = List.length cs + count is_free_port (trace s)
            /\ count is_kill (trace (run_calls E cs s)) = count is_kill (trace s)
            /\ requests (trace (run_calls E cs s)) = requests (trace s)).
  { clear cs Hneed. induction cs as [|c cs IH]; intros s Hall Hslot.
    - cbn. auto.
    - cbn [forallb] in Hall. apply andb_true_iff in Hall as [Hc Hcs].
      destruct (Hstep c s Hslot Hc) as (_ & H1 & H2 & H3 & H4 & H5).
      destruct (IH _ Hcs H1) as (I1 & I2 & I3 & I4 & I5).
      cbn [run_calls List.length]. repeat split; try assumption; try lia;
        congruence. }
  destruct (Hrun cs (__init__ E) Hneed eq_refl) as (H1 & H2 & H3 & H4 & H5).
  cbn [__init__ trace] in *. change (count _ []) with 0 in *.
  repeat split; try assumption; try lia.
  intros c Hc. apply (Hstep c _ H1 Hc).
Qed.

(** X11: there is no restart after [_close].  On a system that reports a
    killed process as terminated, once [_close] has run on a started
    instance, whatever is called next, the slot keeps the killed handle,
    nothing is spawned, and every keyword that reaches the process raises
    the connection error. *)
Theorem no_restart_after__close (E : Env) (s : State) (h : Popen)
    (cs : list call) (c : call)
    (Hos : forall t, In (EvKill h) t -> os_poll E t h <> None)
    (Hslot : cached_process s = Some h)
    (Hneeds : needs_process c = true) (Hc : c <> Call__close) :
  let s1 := run_calls E cs (snd (_close E s)) in
  cached_process s1 = Some h
  /\ count is_spawn (trace s1) = count is_spawn (trace s)
  /\ fst (run_call E c s1)
     = Raise (ConnectionError "Playwright process has been terminated").
Proof.
  cbv zeta.
  assert (Hrun : forall cs s0,
            cached_process s0 = Some h -> In (EvKill h) (trace s0) ->
            cached_process (run_calls E cs s0) = Some h
            /\ In (EvKill h) (trace (run_calls E cs s0))
            /\ count is_spawn (trace (run_calls E cs s0))
               = count is_spawn (trace s0)).
  { clear cs. induction cs as [|k cs IH]; intros s0 Hs0 Hk; [auto|].
    cbn [run_calls].
    pose proof (started_stable E s0 h k Hs0) as Hst. cbv zeta in Hst.
    destruct Hst as (H1 & _ & _ & H2 & _).
    destruct (started_extends E s0 h k Hs0) as (d & Hd).
    destruct (IH _ H1) as (I1 & I2 & I3).
    - rewrite Hd. apply in_or_app. right. exact Hk.
    - repeat split; [exact I1 | exact I2 | congruence]. }
  assert (Hclose : _close E s
                   = (Ok tt, with_trace s
                               (EvLog DEBUG "Playwright process killed"
                                :: EvKill h
                                :: EvLog DEBUG "Closing Playwright process"
                                :: trace s))).
  { rewrite _close_eq.
    rewrite (start_cached E (with_trace s _) h Hslot). reflexivity. }
  rewrite Hclose. cbn [snd].
  destruct (Hrun cs (with_trace s
                       (EvLog DEBUG "Playwright process killed" :: EvKill h
                        :: EvLog DEBUG "Closing Playwright process" :: trace s)))
    as (H1 & H2 & H3); [exact Hslot | cbn; tauto |].
  split; [exact H1|]. split; [exact H3|].
  set (s1 := run_calls E cs _) in *.
  destruct (os_poll E (trace s1) h) as [rc|] eqn:Hpoll;
    [|exfalso; exact (Hos _ H2 Hpoll)].
  destruct c as [b u| | | | | | | | |]; try congruence;
    cbn [run_call needs_process] in *;
    unfold open_browser, close_browser, go_to, input_text, click_button,
      location_should_be, textfield_value_should_be, title_should_be,
      page_should_contain;
    try (rewrite Hneeds; cbn [negb]);
    rewrite (with_started E _ s1 h H1), Hpoll; reflexivity.
Qed.

(** X13: [open_browser] looks at the name only through its lower-cased,
    trimmed form: with a supported name it does exactly what it does with
    the canonical name. *)
Theorem open_browser_ignores_case_and_padding (E : Env) (browser : string)
    (url : option string) (s : State)
    (Hin : In (PyStr.strip (PyStr.lower browser)) _SUPPORTED_BROWSERS) :
  open_browser E browser url s
  = open_browser E (PyStr.strip (PyStr.lower browser)) url s.
Proof.
  unfold open_browser.
  destruct Hin as [H|[H|[H|[]]]]; rewrite <- H; reflexivity.
Qed.

(* ------------------------------------------------------------------ *)
(** ** Channels in a run *)

Lemma count_zero_existsb (f : event -> bool) (t : list event) :
  count f t = 0 <-> existsb f t = false.
Proof.
  induction t as [|e t IH]; [split; reflexivity|].
  rewrite count_cons. cbn [existsb]. destruct (f e); cbn.
  - split; discriminate.
  - exact IH.
Qed.

Lemma next_channel_no_close (t : list event) :
  chans_in_order t = true ->
  existsb (is_close_of {| cid := count is_chan_open t |}) t = false.
Proof.
  intros Hwf. apply count_zero_existsb, next_channel_not_closed, Hwf.
Qed.

(** Discharges [closed_last] of a trace grown by explicit events on the
    newest channel. *)
Ltac closed_last_grows Hex Hcl :=
  cbn [closed_last chan_of existsb is_close_of orb cid];
  rewrite ?Nat.eqb_refl; cbn [orb];
  rewrite ?Hex, ?Hcl; reflexivity.

Lemma start_closed_last (E : Env) (s : State) :
  chans_in_order (trace s) = true /\ closed_last (trace s) = true ->
  chans_in_order (trace (snd (_playwright_process E s))) = true
  /\ closed_last (trace (snd (_playwright_process E s))) = true.
Proof.
  intros HI. destruct (cached_process s) as [h|] eqn:Hslot.
  - rewrite (start_cached E s h Hslot). exact HI.
  - apply (start_invariant E s
             (fun t => chans_in_order t = true /\ closed_last t = true) Hslot).
    + destruct HI as [Hwf Hcl]. split; [cbn; in_order|].
      cbn [start_events app closed_last chan_of]. rewrite Hcl. reflexivity.
    + intros t [Hwf Hcl]. cbv zeta.
      pose proof (next_channel_no_close t Hwf) as Hex.
      destruct (rpc_reply E _ Health Empty) as [resp|];
        (split; [in_order | closed_last_grows Hex Hcl]).
Qed.

Lemma started_closed_last (E : Env) (s : State) (h : Popen) (c : call) :
  cached_process s = Some h -> needs_process c = true ->
  chans_in_order (trace s) = true /\ closed_last (trace s) = true ->
  closed_last (trace (snd (run_call E c s))) = true.
Proof.
  intros Hslot Hneeds [Hwf Hcl].
  pose proof (next_channel_no_close _ Hwf) as Hex.
  started_call E s h Hslot c; cbn [trace] in *; closed_last_grows Hex Hcl.
Qed.

(** Every trace of a run on a new instance keeps its channels in order and
    leaves a closed channel alone. *)
Lemma run_calls_closed_last (E : Env) (cs : list call) :
  chans_in_order (trace (run_calls E cs (__init__ E))) = true
  /\ closed_last (trace (run_calls E cs (__init__ E))) = true.
Proof.
  set (I := fun s : State => chans_in_order (trace s) = true
                             /\ closed_last (trace s) = true).
  change (I (run_calls E cs (__init__ E))).
  apply run_calls_invariant; [|split; reflexivity].
  apply (run_call_invariant E I); unfold I.
  - intros s. apply start_closed_last.
  - intros s h c Hslot Hneeds _ HI. split.
    + apply (started_in_order E s h c Hslot Hneeds), HI.
    + apply (started_closed_last E s h c Hslot Hneeds HI).
  - intros s [Hwf Hcl]. split; [cbn [trace with_trace]; in_order|].
    cbn [trace with_trace closed_last chan_of]. rewrite Hcl. reflexivity.
  - intros s h _ [Hwf Hcl]. split; [cbn [trace with_trace]; in_order|].
    cbn [trace with_trace closed_last chan_of]. rewrite Hcl. reflexivity.
Qed.

Lemma closed_last_suffix (pre post : list event) :
  closed_last (pre ++ post) = true -> closed_last post = true.
Proof.
  induction pre as [|e pre IH]; intros H; [exact H|].
  cbn [app closed_last] in H. apply andb_true_iff in H as [H _]. auto.
Qed.

Lemma chans_in_order_suffix (pre post : list event) :
  chans_in_order (pre ++ post) = true -> chans_in_order post = true.
Proof.
  induction pre as [|e pre IH]; intros H; [exact H|].
  cbn [app chans_in_order] in H. apply andb_true_iff in H as [H _]. auto.
Qed.

(** In a trace in order, every number below the count names an opened
    channel. *)
Lemma opened_below_count (t : list event) (c : Channel) :
  chans_in_order t = true -> cid c < count is_chan_open t ->
  existsb (is_open_of c) t = true.
Proof.
  induction t as [|e t IH]; intros Hwf Hlt; [cbn in Hlt; lia|].
  cbn [chans_in_order] in Hwf. apply andb_true_iff in Hwf as [Ht He].
  rewrite count_cons in Hlt. cbn [existsb].
  destruct e as [| | | |d tg| | | | |]; cbn [is_chan_open is_open_of] in *;
    try (apply IH; [exact Ht | lia]).
  apply Nat.eqb_eq in He.
  destruct (Nat.eqb (cid c) (cid d)) eqn:Hcd; [reflexivity|].
  apply Nat.eqb_neq in Hcd. cbn [orb]. apply IH; [exact Ht | lia].
Qed.

Lemma close_of_same_cid (c d : Channel) (t : list event) :
  cid c = cid d -> count (is_close_of c) t = count (is_close_of d) t.
Proof.
  intros Hcd. induction t as [|e t IH]; [reflexivity|].
  rewrite !count_cons, IH. destruct e; cbn [is_close_of]; try reflexivity.
  rewrite Hcd. reflexivity.
Qed.

Lemma closed_at_most_once (t : list event) (c : Channel) :
  closed_last t = true -> count (is_close_of c) t <= 1.
Proof.
  induction t as [|e t IH]; intros Hcl; [cbn; lia|].
  cbn [closed_last] in Hcl. apply andb_true_iff in Hcl as [Ht He].
  specialize (IH Ht). rewrite count_cons.
  destruct (is_close_of c e) eqn:Hce; [|lia].
  destruct e as [| | | | |d| | | |]; try discriminate.
  cbn [chan_of is_close_of] in *. apply Nat.eqb_eq in Hce.
  apply negb_true_iff, count_zero_existsb in He.
  rewrite (close_of_same_cid c d t Hce), He. lia.
Qed.

Lemma opened_at_most_once (t : list event) (c : Channel) :
  chans_in_order t = true -> count (is_open_of c) t <= 1.
Proof.
  induction t as [|e t IH]; intros Hwf; [cbn; lia|].
  pose proof Hwf as Hwf0.
  cbn [chans_in_order] in Hwf. apply andb_true_iff in Hwf as [Ht He].
  specialize (IH Ht). rewrite count_cons.
  destruct (is_open_of c e) eqn:Hce; [|lia].
  destruct e as [| | | |d tg| | | | |]; try discriminate.
  cbn [is_open_of] in Hce. apply Nat.eqb_eq in Hce. apply Nat.eqb_eq in He.
  assert (Hz : count (is_open_of c) t = 0).
  { apply count_zero_existsb.
    destruct (existsb (is_open_of c) t) eqn:Hex; [|reflexivity].
    apply existsb_exists in Hex as (x & Hin & Hx).
    destruct x as [| | | |d' tg'| | | | |]; try discriminate.
    cbn [is_open_of] in Hx. apply Nat.eqb_eq in Hx.
    pose proof (chans_in_order_bound t Ht _ d' Hin eq_refl) as Hlt. lia. }
  rewrite Hz. lia.
Qed.

(** X10: the channels of a run on a new instance.  In every trace such a
    run produces, a channel is opened under the next free number, an event
    on a channel comes after that channel was opened and never after it was
    closed, and no channel is opened twice or closed twice. *)
Theorem run_keeps_channel_discipline (E : Env) (cs : list call) :
  let t := trace (run_calls E cs (__init__ E)) in
  (forall pre e post c,
     t = (pre ++ e :: post)%list -> chan_of e = Some c ->
     existsb (is_close_of c) post = false
     /\ (is_chan_open e = true ->
         cid c = count is_chan_open post
         /\ existsb (is_open_of c) post = false)
     /\ (is_chan_open e = false -> existsb (is_open_of c) post = true))
  /\ forall c, count (is_open_of c) t <= 1 /\ count (is_close_of c) t <= 1.
Proof.
  cbv zeta. destruct (run_calls_closed_last E cs) as [Hwf Hcl]. split.
  - intros pre e post c Ht Hc. rewrite Ht in Hwf, Hcl.
    apply chans_in_order_suffix in Hwf. apply closed_last_suffix in Hcl.
    pose proof Hwf as Hwf0.
    cbn [chans_in_order closed_last] in Hwf, Hcl.
    apply andb_true_iff in Hwf as [Hwp He].
    apply andb_true_iff in Hcl as [_ Hce].
    rewrite Hc in Hce. apply negb_true_iff in Hce.
    split; [exact Hce|].
    destruct e as [| | | |d tg|d|d m r res| | |]; try discriminate;
      injection Hc as ->; cbn [is_chan_open]; split; intros H;
      try discriminate.
    + apply Nat.eqb_eq in He. split; [exact He|].
      apply count_zero_existsb.
      pose proof (opened_at_most_once _ c Hwf0) as H1.
      rewrite count_cons in H1. cbn [is_open_of] in H1.
      rewrite Nat.eqb_refl in H1. lia.
    + apply opened_below_count; [exact Hwp | apply Nat.ltb_lt, He].
    + apply opened_below_count; [exact Hwp | apply Nat.ltb_lt, He].
  - intros c. split; [apply opened_at_most_once | apply closed_at_most_once];
      assumption.
Qed.

(* ------------------------------------------------------------------ *)
(** ** What a call costs *)

Lemma start_cost (E : Env) (s : State) :
  let s' := snd (_playwright_process E s) in
  slept (trace s') <= slept (trace s) + 5000
  /\ count is_probe (trace s') <= count is_probe (trace s) + 50
  /\ count is_kill (trace s') = count is_kill (trace s).
Proof.
  cbv zeta. destruct (cached_process s) as [h|] eqn:Hslot.
  - rewrite (start_cached E s h Hslot). cbn [snd]. repeat split; lia.
  - destruct (start_delta E s
                (fun d => slept (d ++ trace s)
                          = slept (trace s) + 100 * count is_probe_failed d) Hslot)
      as (delta & Htr & Hsl).
    + cbn. lia.
    + intros d c tgt resp msg Hd _ _ _. rewrite !count_cons.
      cbn [app slept is_probe_failed]. lia.
    + intros d c tgt Hd _ _ _. rewrite !count_cons.
      cbn [app slept is_probe_failed]. lia.
    + pose proof (start_effects E s Hslot) as Hfx. cbv zeta in Hfx.
      destruct Hfx as (_ & _ & Hk & _).
      rewrite Htr, Hsl. clear Hsl.
      destruct (start_spec E s Hslot)
        as (d0 & _ & Hle & [(Heq & _) | (Heq & _)]);
        rewrite Heq in *; cbn [fst snd after_start trace] in *;
        rewrite app_assoc in Htr; apply app_inv_tail in Htr; subst delta;
        rewrite !count_app in *;
        change (count is_probe_failed (start_events E s)) with 0;
        change (count is_probe (start_events E s)) with 0;
        pose proof (count_probe_split d0) as Hsplit;
        repeat split; lia.
Qed.

Lemma started_cost (E : Env) (s : State) (h : Popen) (c : call) :
  cached_process s = Some h -> needs_process c = true ->
  let s' := snd (run_call E c s) in
  slept (trace s') = slept (trace s)
  /\ count is_probe (trace s') = count is_probe (trace s)
  /\ (c <> Call__close -> count is_kill (trace s') = count is_kill (trace s))
  /\ count is_kill (trace s') <= S (count is_kill (trace s)).
Proof.
  intros Hslot Hneeds. cbv zeta.
  started_call E s h Hslot c;
    rewrite ?count_cons; cbn [slept is_probe is_kill];
    repeat split; try lia; try congruence.
Qed.

(** X14: what one call can cost.  Any call sleeps at most 5000
    milliseconds and sends at most 50 health probes; on a started instance
    it sleeps not at all and sends none. *)
Theorem call_sleeps_at_most_five_seconds (E : Env) (c : call) (s : State) :
  let s' := snd (run_call E c s) in
  slept (trace s') <= slept (trace s) + 5000
  /\ count is_probe (trace s') <= count is_probe (trace s) + 50
  /\ (forall h, cached_process s = Some h ->
        slept (trace s') = slept (trace s)
        /\ count is_probe (trace s') = count is_probe (trace s)).
Proof.
  cbv zeta. destruct (needs_process c) eqn:Hneeds.
  - assert (Hst : forall h, cached_process s = Some h ->
                    slept (trace (snd (run_call E c s))) = slept (trace s)
                    /\ count is_probe (trace (snd (run_call E c s)))
                       = count is_probe (trace s)).
    { intros h Hslot.
      pose proof (started_cost E s h c Hslot Hneeds) as H. cbv zeta in H. tauto. }
    destruct (cached_process s) as [h|] eqn:Hslot.
    + destruct (Hst h eq_refl) as [H1 H2]. repeat split; try lia; auto.
    + split; [|split; [|intros h [=]]];
        rewrite (run_call_entry E c s Hneeds);
        pose proof (start_cost E (call_entry c s)) as Hc; cbv zeta in Hc;
        destruct Hc as (Hsl & Hpr & _);
        assert (He1 : slept (trace (call_entry c s)) = slept (trace s))
          by (destruct c; reflexivity);
        assert (He2 : count is_probe (trace (call_entry c s))
                      = count is_probe (trace s))
          by (destruct c; reflexivity);
        destruct (_playwright_process E (call_entry c s)) as [[h|e] s0] eqn:Hs;
        cbn [snd] in *; try lia;
        pose proof (start_ok_cached E _ s0 h Hs) as Hslot0;
        (destruct c as [b u| | | | | | | | |];
         [pose proof (started_cost E s0 h _ Hslot0 Hneeds) as H; cbv zeta in H;
          destruct H as (H1 & H2 & _); lia ..
         | cbn [snd trace with_trace]; rewrite ?count_cons;
           cbn [slept is_probe]; lia]).
  - rewrite (run_call_rejected E c s Hneeds). repeat split; lia.
Qed.

(** X15: only [_close] kills.  A keyword never kills a process, whatever
    the state of the instance; [_close] kills at most one. *)
Theorem only__close_kills (E : Env) (c : call) (s : State) :
  let s' := snd (run_call E c s) in
  (c <> Call__close -> count is_kill (trace s') = count is_kill (trace s))
  /\ count is_kill (trace s') <= S (count is_kill (trace s)).
Proof.
  cbv zeta. destruct (needs_process c) eqn:Hneeds.
  - rewrite (run_call_entry E c s Hneeds).
    pose proof (start_cost E (call_entry c s)) as Hc. cbv zeta in Hc.
    destruct Hc as (_ & _ & Hk).
    assert (He : count is_kill (trace (call_entry c s)) = count is_kill (trace s))
      by (destruct c; reflexivity).
    destruct (_playwright_process E (call_entry c s)) as [[h|e] s0] eqn:Hs;
      cbn [snd] in *; [|split; intros; lia].
    pose proof (start_ok_cached E _ s0 h Hs) as Hslot0.
    destruct c as [b u| | | | | | | | |];
      [pose proof (started_cost E s0 h _ Hslot0 Hneeds) as H; cbv zeta in H;
       destruct H as (_ & _ & H1 & H2);
       specialize (H1 ltac:(discriminate)); split; intros; lia ..
      | cbn [snd trace with_trace]; rewrite ?count_cons; cbn [is_kill];
        split; [congruence | lia]].
  - rewrite (run_call_rejected E c s Hneeds). split; intros; lia.
Qed.

(* ------------------------------------------------------------------ *)
(** ** The channel of a session *)

(** X8: on a started instance whose process is alive, a keyword opens one
    channel, the next one, and that channel ends up closed exactly when the
    keyword returns normally: once then, never when the keyword raises. *)
Theorem session_channel_closed_iff_keyword_returns (E : Env) (s : State)
    (h : Popen) (c : call)
    (Hslot : cached_process s = Some h)
    (Halive : os_poll E (trace s) h = None)
    (Hwf : chans_in_order (trace s) = true)
    (Hneeds : needs_process c = true) (Hc : c <> Call__close) :
  let ch := {| cid := count is_chan_open (trace s) |} in
  let out := run_call E c s in
  count (is_open_of ch) (trace (snd out)) = 1
  /\ count (is_close_of ch) (trace (snd out)) <= 1
  /\ (count (is_close_of ch) (trace (snd out)) = 1 <-> fst out = Ok tt).
Proof.
  pose proof (channel_closed_only_on_return E s h c Hslot Halive Hwf Hneeds Hc)
    as H. cbv zeta in *. destruct H as (Hopen & Hok & Hraise).
  split; [exact Hopen|].
  destruct (fst (run_call E c s)) as [[]|e].
  - rewrite (Hok eq_refl). split; [lia | tauto].
  - rewrite (Hraise e eq_refl). split; [lia|]. split; [lia | discriminate].
Qed.

(* ------------------------------------------------------------------ *)
(** ** The further theorems at work on the mock *)

(** [textfield_value_should_be_compares_body] on the mock, whose answer is
    not the text expected. *)
Lemma textfield_value_should_be_compares_body_witness :
  before_yield (insecure_stub demo_env) (started demo_reply)
  = (Ok ({| stub_channel := {| cid := 1 |} |}, {| cid := 1 |}), demo_session)
  /\ requests (trace (snd (textfield_value_should_be demo_env "#user" "alice"
                             (started demo_reply))))
     = [(GetInputValue, selectorRequest "#user")]
  /\ exists msg,
       fst (textfield_value_should_be demo_env "#user" "alice"
              (started demo_reply)) = Raise (AssertionError msg)
       /\ PyStr.contains "#user" msg.
Proof.
  assert (Henter : before_yield (insecure_stub demo_env) (started demo_reply)
                   = (Ok ({| stub_channel := {| cid := 1 |} |}, {| cid := 1 |}),
                      demo_session))
    by (vm_compute; reflexivity).
  split; [exact Henter|].
  destruct (textfield_value_should_be_compares_body demo_env "#user" "alice"
              (started demo_reply) demo_session _ _ Henter)
    as (Hreq & _ & Hres).
  split; [rewrite Hreq; vm_compute; reflexivity|].
  assert (Hreply : rpc_reply demo_env (trace demo_session) GetInputValue
                     (selectorRequest "#user") = Some demo_reply)
    by (vm_compute; reflexivity).
  destruct (Hres demo_reply Hreply) as (_ & _ & Hfail).
  destruct (Hfail ltac:(discriminate)) as (msg & Hmsg & Hsel & _).
  exists msg. split; assumption.
Defined.

(** [title_should_be_compares_body] on the mock, for the title the engine
    reports. *)
Lemma title_should_be_compares_body_witness :
  before_yield (insecure_stub demo_env) (started demo_reply)
  = (Ok ({| stub_channel := {| cid := 1 |} |}, {| cid := 1 |}), demo_session)
  /\ fst (title_should_be demo_env "https://example.com" (started demo_reply))
     = Ok tt.
Proof.
  assert (Henter : before_yield (insecure_stub demo_env) (started demo_reply)
                   = (Ok ({| stub_channel := {| cid := 1 |} |}, {| cid := 1 |}),
                      demo_session))
    by (vm_compute; reflexivity).
  split; [exact Henter|].
  destruct (title_should_be_compares_body demo_env "https://example.com"
              (started demo_reply) demo_session _ _ Henter)
    as (_ & _ & Hres).
  assert (Hreply : rpc_reply demo_env (trace demo_session) GetTitle Empty
                   = Some demo_reply)
    by (vm_compute; reflexivity).
  destruct (Hres demo_reply Hreply) as (_ & Hiff & _).
  apply Hiff. reflexivity.
Defined.

(** [action_keywords_send_one_request] on the mock, for [input_text]. *)
Lemma action_keywords_send_one_request_witness :
  before_yield (insecure_stub demo_env) (started demo_reply)
  = (Ok ({| stub_channel := {| cid := 1 |} |}, {| cid := 1 |}), demo_session)
  /\ requests (trace (snd (run_call demo_env (Call_input_text "#user" "alice")
                             (started demo_reply))))
     = [(InputText, inputTextRequest "alice" "#user")].
Proof.
  assert (Henter : before_yield (insecure_stub demo_env) (started demo_reply)
                   = (Ok ({| stub_channel := {| cid := 1 |} |}, {| cid := 1 |}),
                      demo_session))
    by (vm_compute; reflexivity).
  split; [exact Henter|].
  destruct (action_keywords_send_one_request demo_env "" "#user" "alice"
              (Call_input_text "#user" "alice") InputText
              (inputTextRequest "alice" "#user")
              (started demo_reply) demo_session _ _
              ltac:(cbn; tauto) Henter) as (Hreq & _).
  rewrite Hreq. vm_compute. reflexivity.
Defined.

(** [session_dials_port_of_cached_process] on the mock, after one keyword. *)
Lemma session_dials_port_of_cached_process_witness :
  cached_process (run_calls demo_env [Call_close_browser] (__init__ demo_env))
  = Some {| pid := 0 |}
  /\ exists p,
       port (run_calls demo_env [Call_close_browser] (__init__ demo_env))
       = Some p.
Proof.
  assert (Hslot : cached_process
                    (run_calls demo_env [Call_close_browser] (__init__ demo_env))
                  = Some {| pid := 0 |})
    by (vm_compute; reflexivity).
  split; [exact Hslot|].
  destruct (session_dials_port_of_cached_process demo_env [Call_close_browser]
              {| pid := 0 |} Hslot) as (p & _ & _ & _ & Hp & _).
  exists p. exact Hp.
Defined.

(** [call_raises_only_its_errors] on the mock: an unsupported browser. *)
Lemma call_raises_only_its_errors_witness :
  fst (run_call demo_env (Call_open_browser (Some "opera") None)
         (__init__ demo_env))
  = Raise (ValueError
             "opera is not supported, it should be one of: chrome, firefox, webkit")
  /\ needs_process (Call_open_browser (Some "opera") None) = false.
Proof.
  assert (Hraise : fst (run_call demo_env (Call_open_browser (Some "opera") None)
                          (__init__ demo_env))
                   = Raise (ValueError
                              "opera is not supported, it should be one of: chrome, firefox, webkit"))
    by (vm_compute; reflexivity).
  split; [exact Hraise|].
  exact (call_raises_only_its_errors demo_env _ _ _ Hraise).
Defined.

(** [session_channel_closed_iff_keyword_returns] on the mock, for [go_to]. *)
Lemma session_channel_closed_iff_keyword_returns_witness :
  cached_process (started demo_reply) = Some {| pid := 0 |}
  /\ os_poll demo_env (trace (started demo_reply)) {| pid := 0 |} = None
  /\ chans_in_order (trace (started demo_reply)) = true
  /\ count (is_open_of {| cid := count is_chan_open (trace (started demo_reply)) |})
       (trace (snd (run_call demo_env (Call_go_to "https://example.com")
                      (started demo_reply)))) = 1.
Proof.
  assert (H1 : cached_process (started demo_reply) = Some {| pid := 0 |})
    by (vm_compute; reflexivity).
  assert (H2 : os_poll demo_env (trace (started demo_reply)) {| pid := 0 |} = None)
    by (vm_compute; reflexivity).
  assert (H3 : chans_in_order (trace (started demo_reply)) = true)
    by (vm_compute; reflexivity).
  split; [exact H1|]. split; [exact H2|]. split; [exact H3|].
  exact (proj1 (session_channel_closed_iff_keyword_returns demo_env
                  (started demo_reply) {| pid := 0 |}
                  (Call_go_to "https://example.com")
                  H1 H2 H3 eq_refl ltac:(discriminate))).
Defined.

(** [unanswered_engine_spawns_per_call] on the silent mock, for three
    calls. *)
Lemma unanswered_engine_spawns_per_call_witness :
  (forall t, rpc_reply silent_env t Health Empty = None)
  /\ forallb needs_process [Call_close_browser; Call__close; Call_go_to "u"] = true
  /\ count is_spawn
       (trace (run_calls silent_env
                 [Call_close_browser; Call__close; Call_go_to "u"]
                 (__init__ silent_env))) = 3.
Proof.
  split; [reflexivity|]. split; [reflexivity|].
  exact (proj1 (proj2 (unanswered_engine_spawns_per_call silent_env
                         [Call_close_browser; Call__close; Call_go_to "u"]
                         (fun _ => eq_refl) eq_refl))).
Defined.

(** [no_restart_after__close] on the mock, which reports a killed process
    as terminated. *)
Lemma no_restart_after__close_witness :
  (forall t, In (EvKill {| pid := 0 |}) t ->
             os_poll demo_env t {| pid := 0 |} <> None)
  /\ cached_process (started demo_reply) = Some {| pid := 0 |}
  /\ fst (run_call demo_env Call_close_browser
            (run_calls demo_env [Call_go_to "u"]
               (snd (_close demo_env (started demo_reply)))))
     = Raise (ConnectionError "Playwright process has been terminated").
Proof.
  assert (Hos : forall t, In (EvKill {| pid := 0 |}) t ->
                          os_poll demo_env t {| pid := 0 |} <> None).
  { intros t Hin. cbn [os_poll demo_env mock].
    assert (Hex : existsb (is_kill_of {| pid := 0 |}) t = true)
      by (apply existsb_exists; exists (EvKill {| pid := 0 |});
          split; [exact Hin | reflexivity]).
    rewrite Hex. discriminate. }
  assert (Hslot : cached_process (started demo_reply) = Some {| pid := 0 |})
    by (vm_compute; reflexivity).
  split; [exact Hos|]. split; [exact Hslot|].
  exact (proj2 (proj2 (no_restart_after__close demo_env (started demo_reply)
                         {| pid := 0 |} [Call_go_to "u"] Call_close_browser
                         Hos Hslot eq_refl ltac:(discriminate)))).
Defined.

(** [start_spawns_node_on_allocated_port] on the mock, from a new
    instance. *)
Lemma start_spawns_node_on_allocated_port_witness :
  cached_process (__init__ demo_env) = None
  /\ port (snd (_playwright_process demo_env (__init__ demo_env)))
     = Some "50051".
Proof.
  split; [reflexivity|].
  destruct (start_spawns_node_on_allocated_port demo_env (__init__ demo_env)
              eq_refl) as (delta & _ & Hport & _).
  rewrite Hport. vm_compute. reflexivity.
Defined.

(** [open_browser_ignores_case_and_padding] on the mock. *)
Lemma open_browser_ignores_case_and_padding_witness :
  In (PyStr.strip (PyStr.lower " WebKit ")) _SUPPORTED_BROWSERS
  /\ open_browser demo_env " WebKit " None (started demo_reply)
     = open_browser demo_env (PyStr.strip (PyStr.lower " WebKit ")) None
         (started demo_reply).
Proof.
  assert (Hin : In (PyStr.strip (PyStr.lower " WebKit ")) _SUPPORTED_BROWSERS)
    by (vm_compute; tauto).
  split; [exact Hin|].
  exact (open_browser_ignores_case_and_padding demo_env " WebKit " None
           (started demo_reply) Hin).
Defined.

(* ------------------------------------------------------------------ *)
(** ** The process handle, the session and the stop, in full *)

Lemma started_probe_ok (E : Env) (s : State) (h : Popen) (c : call) :
  cached_process s = Some h -> needs_process c = true ->
  count is_probe_ok (trace (snd (run_call E c s)))
  = count is_probe_ok (trace s).
Proof.
  intros Hslot Hneeds.
  started_call E s h Hslot c; rewrite ?count_cons; cbn [is_probe_ok]; lia.
Qed.

Lemma run_calls_app (E : Env) (a b : list call) (s : State) :
  run_calls E (a ++ b) s = run_calls E b (run_calls E a s).
Proof.
  revert s. induction a as [|c a IH]; intros s; [reflexivity|].
  cbn [app run_calls]. apply IH.
Qed.

(** No run of calls on a started instance changes the slot or the port,
    spawns, or allocates a port. *)
Lemma started_run_stable (E : Env) (cs : list call) :
  forall s h, cached_process s = Some h ->
    cached_process (run_calls E cs s) = Some h
    /\ port (run_calls E cs s) = port s
    /\ count is_spawn (trace (run_calls E cs s)) = count is_spawn (trace s)
    /\ count is_free_port (trace (run_calls E cs s))
       = count is_free_port (trace s).
Proof.
  induction cs as [|c cs IH]; intros s h Hslot; [cbn [run_calls]; auto|].
  cbn [run_calls].
  pose proof (started_stable E s h c Hslot) as H. cbv zeta in H.
  destruct H as (Hc & Hp & _ & Hs & Hf).
  destruct (IH _ h Hc) as (Hc' & Hp' & Hs' & Hf'). repeat split; congruence.
Qed.

(** The first call that reaches the process on an instance with an empty
    slot, by the outcome of its start: the start returns the process it
    spawned, a probe was answered, the slot holds that process and the call
    does not end with the start error; or the start raises, no probe was
    answered, the slot stays empty and the call ends with that error. *)
Lemma first_call_outcome (E : Env) (c : call) (s : State) :
  cached_process s = None -> needs_process c = true ->
  let start := _playwright_process E (call_entry c s) in
  let s' := snd (run_call E c s) in
  (fst start = Ok (start_popen s)
   /\ cached_process s' = Some (start_popen s)
   /\ (forall msg, fst (run_call E c s) <> Raise (RuntimeError msg))
   /\ count is_probe_ok (trace s') = S (count is_probe_ok (trace s)))
  \/ (fst start = Raise (RuntimeError (timeout_message E (call_entry c s)))
      /\ cached_process s' = None
      /\ fst (run_call E c s)
         = Raise (RuntimeError (timeout_message E (call_entry c s)))
      /\ count is_probe_ok (trace s') = count is_probe_ok (trace s)).
Proof.
  intros Hslot Hneeds. cbv zeta.
  assert (Hentry : cached_process (call_entry c s) = None)
    by (destruct c; exact Hslot).
  assert (Hpo : start_popen (call_entry c s) = start_popen s)
    by (destruct c; reflexivity).
  assert (Hpk : count is_probe_ok (trace (call_entry c s))
                = count is_probe_ok (trace s))
    by (destruct c; reflexivity).
  rewrite (run_call_entry E c s Hneeds).
  destruct (start_spec E _ Hentry)
    as (delta & Hall & _ & [(Heq & Hok & _) | (Heq & Hn & Hok)]);
    rewrite Heq; cbn [fst snd].
  - left. rewrite Hpo. split; [reflexivity|].
    set (s0 := after_start E (call_entry c s) (Some (start_popen s)) delta).
    assert (Hs0 : cached_process s0 = Some (start_popen s)) by reflexivity.
    assert (Hk0 : count is_probe_ok (trace s0) = S (count is_probe_ok (trace s))).
    { unfold s0. cbn [after_start trace]. rewrite !count_app, Hok, Hpk.
      change (count is_probe_ok (start_events E (call_entry c s))) with 0. lia. }
    destruct c as [b u| | | | | | | | |];
      try (match goal with
           | |- context [run_call E ?k s0] =>
               pose proof (started_stable E s0 _ k Hs0) as Hst; cbv zeta in Hst;
               destruct Hst as (Hc1 & _);
               pose proof (started_probe_ok E s0 _ k Hs0 Hneeds) as Hpr;
               split; [exact Hc1|]; split; [|lia];
               intros msg Hr;
               destruct (started_raises E s0 _ k _ Hs0 Hneeds Hr) as (_ & [])
           end).
    cbn [fst snd with_trace trace cached_process]. split; [exact Hs0|].
    split; [discriminate|]. rewrite !count_cons. cbn [is_probe_ok]. lia.
  - right. split; [reflexivity|]. split; [reflexivity|]. split; [reflexivity|].
    cbn [after_start trace]. rewrite !count_app, Hok, Hpk.
    change (count is_probe_ok (start_events E (call_entry c s))) with 0. lia.
Qed.

(** C4, amended: an instance caches at most one process handle.  [__init__]
    creates none, and a call that does not reach the process leaves the
    state alone.  A call that reaches the process on an instance with an
    empty slot runs one start, which spawns one process and leaves its port
    in the instance: when a probe is answered, the start returns that
    process, the slot holds it and the call does not end with the start
    error; when none is, no handle is created, the slot stays empty and the
    call ends with the start error.  Once the slot is filled,
    [_playwright_process] returns the handle with the state untouched, and
    no run of calls changes the slot or the port, spawns, or allocates a
    port; so all the handles seen along a run on a new instance are one. *)
Theorem one_process_handle_once_started (E : Env) :
  (cached_process (__init__ E) = None /\ port (__init__ E) = None
   /\ trace (__init__ E) = [])
  /\ (forall s c, needs_process c = false -> snd (run_call E c s) = s)
  /\ (forall s c,
        cached_process s = None -> needs_process c = true ->
        let start := _playwright_process E (call_entry c s) in
        let s' := snd (run_call E c s) in
        let p := PyStr.of_N (start_port E (call_entry c s)) in
        count is_spawn (trace s') = S (count is_spawn (trace s))
        /\ (exists args cwd out,
              In (EvSpawn (start_popen s) args cwd
                    [("PORT", p); ("PATH", environ_PATH E)] out) (trace s'))
        /\ port s' = Some p
        /\ ((fst start = Ok (start_popen s)
             /\ cached_process s' = Some (start_popen s)
             /\ (forall msg, fst (run_call E c s) <> Raise (RuntimeError msg))
             /\ count is_probe_ok (trace s') = S (count is_probe_ok (trace s)))
            \/ (fst start
                = Raise (RuntimeError (timeout_message E (call_entry c s)))
                /\ cached_process s' = None
                /\ fst (run_call E c s)
                   = Raise (RuntimeError (timeout_message E (call_entry c s)))
                /\ count is_probe_ok (trace s')
                   = count is_probe_ok (trace s))))
  /\ (forall s h,
        cached_process s = Some h -> _playwright_process E s = (Ok h, s))
  /\ (forall cs s h,
        cached_process s = Some h ->
        let s' := run_calls E cs s in
        cached_process s' = Some h /\ port s' = port s
        /\ count is_spawn (trace s') = count is_spawn (trace s)
        /\ count is_free_port (trace s') = count is_free_port (trace s))
  /\ (forall cs1 cs2 h1 h2,
        cached_process (run_calls E cs1 (__init__ E)) = Some h1 ->
        cached_process (run_calls E (cs1 ++ cs2) (__init__ E)) = Some h2 ->
        h1 = h2
        /\ port (run_calls E (cs1 ++ cs2) (__init__ E))
           = port (run_calls E cs1 (__init__ E))
        /\ count is_spawn (trace (run_calls E (cs1 ++ cs2) (__init__ E)))
           = count is_spawn (trace (run_calls E cs1 (__init__ E)))).
Proof.
  split; [repeat split|]. split; [|split; [|split; [|split]]].
  - intros s c. apply run_call_rejected.
  - intros s c Hslot Hneeds.
    pose proof (first_call_starts E c s Hslot Hneeds) as H.
    pose proof (first_call_outcome E c s Hslot Hneeds) as Hout.
    cbv zeta in *. destruct H as (H1 & _ & _ & H4 & H5 & _).
    split; [exact H1|]. split; [exact H4|]. split; [exact H5 | exact Hout].
  - intros s h. apply start_cached.
  - intros cs s h Hslot. cbv zeta. apply started_run_stable, Hslot.
  - intros cs1 cs2 h1 h2 H1 H2. rewrite run_calls_app in *.
    destruct (started_run_stable E cs2 _ h1 H1) as (Hc & Hp & Hs & _).
    rewrite Hc in H2. injection H2 as <-. auto.
Qed.

(** C4, as stated, fails when the first start fails: on a mock that answers
    no probe of the first start, the first keyword that needs the process
    creates no handle, and the next one spawns a second process and moves the
    port of the instance. *)
Lemma second_call_respawns_after_failed_start :
  let s1 := snd (run_call slow_env Call_close_browser (__init__ slow_env)) in
  let s2 := snd (run_call slow_env Call_close_browser s1) in
  needs_process Call_close_browser = true
  /\ cached_process s1 = None
  /\ count is_spawn (trace s1) = 1 /\ port s1 = Some "50051"
  /\ cached_process s2 = Some {| pid := 1 |}
  /\ count is_spawn (trace s2) = 2 /\ port s2 = Some "50052"
  /\ count is_kill (trace s2) = 0.
Proof.
  vm_compute. repeat split.
Qed.

(** [one_process_handle_once_started] on the mocks: a first keyword whose
    start is answered fills the slot with process 0, a later run keeps it;
    a first keyword whose start is not answered leaves the slot empty. *)
Lemma one_process_handle_once_started_witness :
  cached_process (__init__ demo_env) = None
  /\ needs_process Call_close_browser = true
  /\ cached_process (snd (run_call demo_env Call_close_browser
                            (__init__ demo_env))) = Some {| pid := 0 |}
  /\ cached_process (snd (run_call slow_env Call_close_browser
                            (__init__ slow_env))) = None
  /\ cached_process
       (run_calls demo_env
          [Call_go_to "https://example.com"; Call__close; Call_close_browser]
          (started demo_reply)) = Some {| pid := 0 |}.
Proof.
  split; [reflexivity|]. split; [reflexivity|].
  destruct (one_process_handle_once_started demo_env)
    as (_ & _ & Hfirst & _ & Hkeep & _).
  destruct (one_process_handle_once_started slow_env)
    as (_ & _ & Hslow & _).
  split; [|split].
  - destruct (Hfirst (__init__ demo_env) Call_close_browser eq_refl eq_refl)
      as (_ & _ & _ & [(_ & Hc & _) | (Hr & _)]); [exact Hc|].
    exfalso. vm_compute in Hr. discriminate Hr.
  - destruct (Hslow (__init__ slow_env) Call_close_browser eq_refl eq_refl)
      as (_ & _ & _ & [(Hr & _) | (_ & Hc & _)]); [|exact Hc].
    exfalso. vm_compute in Hr. discriminate Hr.
  - assert (Hs : cached_process (started demo_reply) = Some {| pid := 0 |})
      by (vm_compute; reflexivity).
    destruct (Hkeep [Call_go_to "https://example.com"; Call__close;
                     Call_close_browser]
                (started demo_reply) {| pid := 0 |} Hs) as (Hc & _).
    exact Hc.
Defined.

(** At every point of a run on a new instance, the port of the instance is
    the one the process in the slot was spawned with. *)
Lemma cached_process_port (E : Env) (cs : list call) (h : Popen) :
  cached_process (run_calls E cs (__init__ E)) = Some h ->
  exists p args cwd out,
    port (run_calls E cs (__init__ E)) = Some p
    /\ In (EvSpawn h args cwd [("PORT", p); ("PATH", environ_PATH E)] out)
          (trace (run_calls E cs (__init__ E))).
Proof.
  set (I := fun s : State =>
         forall h, cached_process s = Some h ->
         exists p args cwd out,
           port s = Some p
           /\ In (EvSpawn h args cwd [("PORT", p); ("PATH", environ_PATH E)] out)
                 (trace s)).
  revert h. change (I (run_calls E cs (__init__ E))).
  apply run_calls_invariant; [|intros h' [=]].
  apply (run_call_invariant E I); unfold I.
  - intros s HI h' Hs'. destruct (cached_process s) as [h0|] eqn:Hs.
    + rewrite (start_cached E s h0 Hs) in *. cbn [snd] in *.
      rewrite Hs in Hs'. apply HI. exact Hs'.
    + pose proof (start_effects E s Hs) as Hfx. cbv zeta in Hfx.
      destruct Hfx as (_ & _ & _ & Hport & (delta & Htr) & Hres).
      destruct Hres as [(_ & Hc) | (_ & Hc)]; [|congruence].
      rewrite Hc in Hs'. injection Hs' as <-.
      do 4 eexists. split; [exact Hport|].
      rewrite Htr. apply in_or_app. right. left. reflexivity.
  - intros s h0 c Hs _ _ HI h' Hs'.
    pose proof (started_stable E s h0 c Hs) as Hst. cbv zeta in Hst.
    destruct Hst as (Hc & Hp & _).
    destruct (started_extends E s h0 c Hs) as (d & Hd).
    rewrite Hc in Hs'. injection Hs' as <-.
    destruct (HI h0 Hs) as (p & args & cwd & out & Hport & Hin).
    exists p, args, cwd, out. split; [congruence|].
    rewrite Hd. apply in_or_app. right. exact Hin.
  - intros s HI h' Hs'. destruct (HI h' Hs') as (p & args & cwd & out & Hp & Hin).
    exists p, args, cwd, out. split; [exact Hp | right; exact Hin].
  - intros s h0 _ HI h' Hs'.
    destruct (HI h' Hs') as (p & args & cwd & out & Hp & Hin).
    exists p, args, cwd, out. split; [exact Hp | right; right; exact Hin].
Qed.

(** C5: on a started instance whose port is [p], [insecure_stub] polls the
    process first.  When the poll reports a return code, it raises the
    connection error having done nothing but the poll: no channel, no call;
    every keyword that reaches it ends with that error.  When the poll
    reports no return code, it opens the next channel, which no earlier
    event names, to localhost at port [p], and yields a stub on that
    channel.  And [p] is the assigned port: at every point of a run on a new
    instance, the port of the instance is the PORT the process in the slot
    was spawned with. *)
Theorem insecure_stub_polls_then_dials_assigned_port (E : Env) (s : State)
    (h : Popen) (p : string)
    (Hslot : cached_process s = Some h) (Hport : port s = Some p) :
  (forall rc, os_poll E (trace s) h = Some rc ->
     before_yield (insecure_stub E) s
     = (Raise (ConnectionError "Playwright process has been terminated"),
        with_trace s (EvPoll h (Some rc) :: trace s))
     /\ forall c, needs_process c = true -> c <> Call__close ->
          run_call E c s
          = (Raise (ConnectionError "Playwright process has been terminated"),
             with_trace s (EvPoll h (Some rc) :: trace s)))
  /\ (os_poll E (trace s) h = None ->
      let c := {| cid := count is_chan_open (trace s) |} in
      before_yield (insecure_stub E) s
      = (Ok ({| stub_channel := c |}, c),
         with_trace s (EvChanOpen c ("localhost:" ++ p)
                       :: EvPoll h None :: trace s))
      /\ (chans_in_order (trace s) = true ->
          forall e, In e (trace s) -> chan_of e <> Some c))
  /\ (forall cs h',
        cached_process (run_calls E cs (__init__ E)) = Some h' ->
        chans_in_order (trace (run_calls E cs (__init__ E))) = true
        /\ exists p' args cwd out,
             port (run_calls E cs (__init__ E)) = Some p'
             /\ In (EvSpawn h' args cwd
                      [("PORT", p'); ("PATH", environ_PATH E)] out)
                   (trace (run_calls E cs (__init__ E)))).
Proof.
  split; [|split].
  - intros rc Hpoll. split.
    + rewrite (enter_started E s h Hslot), Hpoll. reflexivity.
    + intros c Hneeds Hc.
      destruct c as [b u| | | | | | | | |]; try congruence;
        cbn [run_call needs_process] in *;
        unfold open_browser, close_browser, go_to, input_text, click_button,
          location_should_be, textfield_value_should_be, title_should_be,
          page_should_contain;
        try (rewrite Hneeds; cbn [negb]);
        rewrite (with_started E _ s h Hslot), Hpoll; reflexivity.
  - intros Hpoll c. split.
    + rewrite (enter_started E s h Hslot), Hpoll, Hport. reflexivity.
    + intros Hwf. apply next_channel_fresh, Hwf.
  - intros cs h' Hs. split.
    + apply run_calls_in_order. reflexivity.
    + apply cached_process_port, Hs.
Qed.

(** [insecure_stub_polls_then_dials_assigned_port] on the mock: the process
    was spawned with PORT 50051; while it lives the session gets channel 1
    to localhost:50051; after [_close] the next keyword ends with the
    connection error. *)
Lemma insecure_stub_polls_then_dials_assigned_port_witness :
  cached_process (started demo_reply) = Some {| pid := 0 |}
  /\ port (started demo_reply) = Some "50051"
  /\ os_poll demo_env (trace (started demo_reply)) {| pid := 0 |} = None
  /\ before_yield (insecure_stub demo_env) (started demo_reply)
     = (Ok ({| stub_channel := {| cid := 1 |} |}, {| cid := 1 |}),
        with_trace (started demo_reply)
          (EvChanOpen {| cid := 1 |} "localhost:50051"
           :: EvPoll {| pid := 0 |} None :: trace (started demo_reply)))
  /\ os_poll demo_env (trace (snd (_close demo_env (started demo_reply))))
       {| pid := 0 |} = Some (-9)%Z
  /\ fst (run_call demo_env Call_close_browser
            (snd (_close demo_env (started demo_reply))))
     = Raise (ConnectionError "Playwright process has been terminated").
Proof.
  assert (Hslot : cached_process (started demo_reply) = Some {| pid := 0 |})
    by (vm_compute; reflexivity).
  assert (Hport : port (started demo_reply) = Some "50051")
    by (vm_compute; reflexivity).
  assert (Halive : os_poll demo_env (trace (started demo_reply)) {| pid := 0 |}
                   = None)
    by (vm_compute; reflexivity).
  assert (Hslot2 : cached_process (snd (_close demo_env (started demo_reply)))
                   = Some {| pid := 0 |})
    by (vm_compute; reflexivity).
  assert (Hport2 : port (snd (_close demo_env (started demo_reply)))
                   = Some "50051")
    by (vm_compute; reflexivity).
  assert (Hdead : os_poll demo_env
                    (trace (snd (_close demo_env (started demo_reply))))
                    {| pid := 0 |} = Some (-9)%Z)
    by (vm_compute; reflexivity).
  split; [exact Hslot|]. split; [exact Hport|]. split; [exact Halive|].
  split; [|split; [exact Hdead|]].
  - destruct (insecure_stub_polls_then_dials_assigned_port demo_env
                (started demo_reply) {| pid := 0 |} "50051" Hslot Hport)
      as (_ & Hlive & _).
    destruct (Hlive Halive) as [Heq _]. rewrite Heq. vm_compute. reflexivity.
  - destruct (insecure_stub_polls_then_dials_assigned_port demo_env
                (snd (_close demo_env (started demo_reply)))
                {| pid := 0 |} "50051" Hslot2 Hport2) as (Hd & _).
    destruct (Hd (-9)%Z Hdead) as [_ Hcall].
    rewrite (Hcall Call_close_browser eq_refl ltac:(discriminate)).
    reflexivity.
Defined.

(** C8, amended: [_close] logs, reaches the process through the cached
    property, kills it and logs again.  With a handle in the slot it kills
    that handle and spawns nothing; called again it kills the same handle
    once more, which adds no process to the killed ones, and spawns nothing.
    With an empty slot it writes its first log line and then runs the start,
    which spawns a process and after that only probes.  When the start
    returns the process, [_close] kills it and writes its second log line,
    and the slot holds the process.  When the start raises, [_close] raises
    that error: nothing is killed, the second log line is not written, and
    the slot stays empty. *)
Theorem _close_kills_through_cached_property (E : Env) (s : State) :
  (forall h, cached_process s = Some h ->
     let s1 := with_trace s (EvLog DEBUG "Playwright process killed"
                             :: EvKill h
                             :: EvLog DEBUG "Closing Playwright process"
                             :: trace s) in
     let s2 := with_trace s1 (EvLog DEBUG "Playwright process killed"
                              :: EvKill h
                              :: EvLog DEBUG "Closing Playwright process"
                              :: trace s1) in
     _close E s = (Ok tt, s1)
     /\ _close E s1 = (Ok tt, s2)
     /\ (forall p, existsb (is_kill_of p) (trace s2)
                   = existsb (is_kill_of p) (trace s1))
     /\ count is_spawn (trace s2) = count is_spawn (trace s))
  /\ (cached_process s = None ->
      let s_ := with_trace s (EvLog DEBUG "Closing Playwright process"
                              :: trace s) in
      let out := _close E s in
      count is_spawn (trace (snd out)) = S (count is_spawn (trace s))
      /\ exists delta,
           forallb probe_event delta = true
           /\ ((fst out = Ok tt
                /\ cached_process (snd out) = Some (start_popen s)
                /\ count is_probe_ok delta = 1
                /\ trace (snd out)
                   = (EvLog DEBUG "Playwright process killed"
                      :: EvKill (start_popen s)
                      :: delta ++ start_events E s_
                      ++ EvLog DEBUG "Closing Playwright process" :: trace s)%list)
               \/ (fst out = Raise (RuntimeError (timeout_message E s_))
                   /\ cached_process (snd out) = None
                   /\ count is_probe_ok delta = 0
                   /\ count is_probe delta = 50
                   /\ trace (snd out)
                      = (delta ++ start_events E s_
                         ++ EvLog DEBUG "Closing Playwright process"
                         :: trace s)%list))).
Proof.
  split.
  - intros h Hslot. cbv zeta.
    destruct s as [dir port_ slot t]. cbn [cached_process] in Hslot. subst slot.
    unfold _close, _playwright_process, cached_property. run_monad.
    unfold with_trace. cbn [trace ROBOT_OUTPUT_DIR port cached_process].
    split; [reflexivity|]. split; [reflexivity|]. split; [|reflexivity].
    intros p. cbn [existsb is_kill_of].
    destruct (Nat.eqb (pid p) (pid h)); reflexivity.
  - intros Hslot. cbv zeta. rewrite _close_eq.
    set (s_ := with_trace s (EvLog DEBUG "Closing Playwright process" :: trace s)).
    assert (Hslot_ : cached_process s_ = None) by exact Hslot.
    pose proof (start_effects E s_ Hslot_) as Hfx. cbv zeta in Hfx.
    destruct Hfx as (Hs & _).
    destruct (start_spec E s_ Hslot_)
      as (delta & Hall & _ & [(Heq & Hok & _) | (Heq & Hn & Hok)]);
      rewrite Heq in *; cbn [fst snd] in *.
    + split; [exact Hs|]. exists delta. split; [exact Hall|]. left.
      repeat split. exact Hok.
    + split; [exact Hs|]. exists delta. split; [exact Hall|]. right.
      repeat split; assumption.
Qed.

(** [_close_kills_through_cached_property] on the mocks: with the slot
    filled; with the slot empty and the start answered; with the slot empty
    and the start not answered. *)
Lemma _close_kills_through_cached_property_witness :
  cached_process (started demo_reply) = Some {| pid := 0 |}
  /\ cached_process (__init__ demo_env) = None
  /\ cached_process (__init__ slow_env) = None
  /\ fst (_close demo_env (started demo_reply)) = Ok tt
  /\ count is_spawn (trace (snd (_close demo_env (__init__ demo_env)))) = 1
  /\ count is_spawn (trace (snd (_close slow_env (__init__ slow_env)))) = 1.
Proof.
  assert (Hs : cached_process (started demo_reply) = Some {| pid := 0 |})
    by (vm_compute; reflexivity).
  split; [exact Hs|]. split; [reflexivity|]. split; [reflexivity|].
  split; [|split].
  - destruct (_close_kills_through_cached_property demo_env (started demo_reply))
      as [Hpresent _].
    destruct (Hpresent {| pid := 0 |} Hs) as (Heq & _).
    rewrite Heq. reflexivity.
  - destruct (_close_kills_through_cached_property demo_env (__init__ demo_env))
      as [_ Habsent].
    destruct (Habsent eq_refl) as (Hc & _). exact Hc.
  - destruct (_close_kills_through_cached_property slow_env (__init__ slow_env))
      as [_ Habsent].
    destruct (Habsent eq_refl) as (Hc & _). exact Hc.
Defined.
